(** * VirusGrowthSimulation: a shallow embedding of the simulation core

    The development follows [VirusGrowthSimulation.py]: the particle
    classes [SimpleVirus] and [ResistantVirus], the containers [Patient]
    and [TreatedPatient], and the driver [simulationWithDrug].

    Modelling conventions.
    - Python floats are modelled by exact rationals ([Q]); [a >= b] is
      [Qle_bool b a].  A float operation rounds where a rational one
      does not, so the outcome of a comparison is stated only at values
      the float computation reaches exactly (0, 1, 1/2, 1/4) or far
      from the threshold, or for arbitrary draws.
    - [random.random()] reads the next value of a draw sequence
      [rng : nat -> Q] and advances a position counter.
    - An instance carries its identity [oid]; a constructor call takes
      the next free identity of the world.  Particles are never mutated
      after construction, so an identity-tagged value stands for the
      object.
    - A method that can raise, draw or allocate runs in the monad [M]:
      a state transformer whose outcome is [Ok v] or [Raise e]; the
      state reached at a [raise] is kept, so a handler resumes from it.
    - A method that assigns attributes of [self] takes the object and
      returns it updated.
    - The state also carries [calls], a ghost record of the calls a
      container's [update] makes; it is written only, never read, and
      serves to state properties of the calls. *)

From Stdlib Require Import String Ascii List ZArith QArith Bool Arith Lia.
Import ListNotations.
Local Open Scope nat_scope.
Local Open Scope list_scope.

(** ** Exceptions and outcomes *)

Inductive exn : Type :=
| NoChildException
| KeyError (k : string)
| TypeError
| ZeroDivisionError
| IndexError.

Inductive result (A : Type) : Type :=
| Ok (a : A)
| Raise (e : exn).
Arguments Ok {A} a.
Arguments Raise {A} e.

Definition rbind {A B} (r : result A) (f : A -> result B) : result B :=
  match r with
  | Ok a => f a
  | Raise e => Raise e
  end.

(** ** The world: random source, allocator, ghost call record *)

Record world (E : Type) : Type := mkWorld {
  rng : nat -> Q;
  pos : nat;
  next_id : nat;
  calls : list E
}.
Arguments mkWorld {E} rng pos next_id calls.
Arguments rng {E} w.
Arguments pos {E} w.
Arguments next_id {E} w.
Arguments calls {E} w.

Definition M (E A : Type) : Type := world E -> result A * world E.

Definition ret {E A} (a : A) : M E A := fun w => (Ok a, w).

Definition bind {E A B} (m : M E A) (f : A -> M E B) : M E B :=
  fun w =>
    match m w with
    | (Ok a, w') => f a w'
    | (Raise e, w') => (Raise e, w')
    end.

Definition raise {E A} (e : exn) : M E A := fun w => (Raise e, w).

Definition lift {E A} (r : result A) : M E A := fun w => (r, w).

Declare Scope py_scope.
Delimit Scope py_scope with py.
Notation "x <- m ;; k" := (bind m (fun x => k))
  (at level 61, m at next level, right associativity) : py_scope.
Notation "m ;;; k" := (bind m (fun _ => k))
  (at level 61, right associativity) : py_scope.
Local Open Scope py_scope.

(** [try: body except NoChildException: handler]. *)
Definition try_except_NoChild {E A} (body handler : M E A) : M E A :=
  fun w =>
    match body w with
    | (Raise NoChildException, w') => handler w'
    | other => other
    end.

(** [random.random()] *)
Definition random {E} : M E Q :=
  fun w => (Ok (rng w (pos w)),
            mkWorld (rng w) (S (pos w)) (next_id w) (calls w)).

(** Identity of the instance under construction. *)
Definition fresh_id {E} : M E nat :=
  fun w => (Ok (next_id w),
            mkWorld (rng w) (pos w) (S (next_id w)) (calls w)).

(** Ghost: record a call. *)
Definition record {E} (e : E) : M E unit :=
  fun w => (Ok tt, mkWorld (rng w) (pos w) (next_id w) (calls w ++ [e])).

(** [for x in xs: body], with the loop-carried variables in [acc]. *)
Fixpoint for_each {E A B} (xs : list A) (body : A -> B -> M E B) (acc : B)
  : M E B :=
  match xs with
  | [] => ret acc
  | x :: rest => acc' <- body x acc ;; for_each rest body acc'
  end.

(** The same loop for a body that neither draws nor allocates. *)
Fixpoint rfor_each {A B} (xs : list A) (body : A -> B -> result B) (acc : B)
  : result B :=
  match xs with
  | [] => Ok acc
  | x :: rest => rbind (body x acc) (rfor_each rest body)
  end.

(** [a >= b] on floats. *)
Definition ge (a b : Q) : bool := Qle_bool b a.

(** [n / d] with [n] a length and [d] an int: true division. *)
Definition true_div (n : nat) (d : Z) : result Q :=
  if Z.eqb d 0 then Raise ZeroDivisionError
  else Ok (inject_Z (Z.of_nat n) / inject_Z d)%Q.

(** ** class SimpleVirus *)

Module SimpleVirus.

Record t : Type := mk {
  oid : nat;
  maxBirthProb : Q;
  clearProb : Q
}.

(** [SimpleVirus(maxBirthProb, clearProb)] *)
Definition new {E} (maxBirthProb clearProb : Q) : M E t :=
  i <- fresh_id ;;
  ret (mk i maxBirthProb clearProb).

Definition getMaxBirthProb (self : t) : Q := maxBirthProb self.

Definition getClearProb (self : t) : Q := clearProb self.

Definition doesClear {E} (self : t) : M E bool :=
  r <- random ;;
  if ge (clearProb self) r then ret true else ret false.

Definition reproduce {E} (self : t) (popDensity : Q) : M E t :=
  r <- random ;;
  if ge (maxBirthProb self * (1 - popDensity))%Q r
  then new (maxBirthProb self) (clearProb self)
  else raise NoChildException.

(** Truth value of an instance in [if pot:]: the class defines neither
    [__bool__] nor [__len__], so every instance is true. *)
Definition truthy (_ : t) : bool := true.

End SimpleVirus.

(** ** class Patient *)

Module Patient.

(** Calls made by [update]. *)
Inductive event : Type :=
| DoesClear (i : SimpleVirus.t) (cleared : bool)
| SetPopDensity (d : Q)
| Reproduce (i : SimpleVirus.t) (popDensity : Q)
    (out : result SimpleVirus.t).

(** [survivorViruses], [newViruses] and [popDensity] are attributes
    that [update] creates by assignment before it reads them. *)
Record t : Type := mk {
  viruses : list SimpleVirus.t;
  maxPop : Z;
  survivorViruses : list SimpleVirus.t;
  newViruses : list SimpleVirus.t;
  popDensity : Q
}.

Definition new (viruses : list SimpleVirus.t) (maxPop : Z) : t :=
  mk viruses maxPop [] [] 0%Q.

Definition getViruses (self : t) := viruses self.
Definition getMaxPop (self : t) := maxPop self.
Definition getTotalPop (self : t) : nat := length (viruses self).

Definition set_viruses (v : list SimpleVirus.t) (self : t) : t :=
  mk v (maxPop self) (survivorViruses self) (newViruses self)
     (popDensity self).
Definition set_survivorViruses (v : list SimpleVirus.t) (self : t) : t :=
  mk (viruses self) (maxPop self) v (newViruses self) (popDensity self).
Definition set_newViruses (v : list SimpleVirus.t) (self : t) : t :=
  mk (viruses self) (maxPop self) (survivorViruses self) v
     (popDensity self).
Definition set_popDensity (d : Q) (self : t) : t :=
  mk (viruses self) (maxPop self) (survivorViruses self)
     (newViruses self) d.

(** Body of the first loop of [update]. *)
Definition clear_step (i : SimpleVirus.t) (self : t) : M event t :=
  c <- SimpleVirus.doesClear i ;;
  record (DoesClear i c) ;;;
  if negb c
  then ret (set_survivorViruses (survivorViruses self ++ [i]) self)
  else ret self.

(** The call [i.reproduce(self.popDensity)], with its outcome recorded. *)
Definition call_reproduce (i : SimpleVirus.t) (d : Q)
  : M event SimpleVirus.t :=
  fun w =>
    match SimpleVirus.reproduce i d w with
    | (out, w') =>
        (out, mkWorld (rng w') (pos w') (next_id w')
                      (calls w' ++ [Reproduce i d out]))
    end.

(** Body of the second loop of [update]: the parent [i] is what is
    appended to [newViruses]. *)
Definition reproduce_step (i : SimpleVirus.t) (self : t) : M event t :=
  try_except_NoChild
    (pot <- call_reproduce i (popDensity self) ;;
     if SimpleVirus.truthy pot
     then ret (set_newViruses (newViruses self ++ [i]) self)
     else ret self)
    (ret self).

Definition update (self : t) : M event (nat * t) :=
  let self := set_survivorViruses [] self in
  let self := set_newViruses [] self in
  self <- for_each (viruses self) clear_step self ;;
  d <- lift (true_div (length (survivorViruses self)) (maxPop self)) ;;
  let self := set_popDensity d self in
  record (SetPopDensity d) ;;;
  self <- for_each (survivorViruses self) reproduce_step self ;;
  let self := set_viruses (survivorViruses self ++ newViruses self) self in
  ret (length (viruses self), self).

End Patient.

(** ** Drug values and resistance dictionaries *)

(** A value met where a drug is expected: a drug name, or a list of
    drug names (what a caller passing a sequence hands over). *)
Inductive drugval : Type :=
| DStr (s : string)
| DList (l : list string).

(** [a == b] *)
Definition drugval_eqb (a b : drugval) : bool :=
  match a, b with
  | DStr s, DStr s' => String.eqb s s'
  | DList l, DList l' =>
      if list_eq_dec string_dec l l' then true else false
  | _, _ => false
  end.

(** The items [for d in v] runs over: the characters of a string, the
    elements of a list. *)
Definition items (v : drugval) : list drugval :=
  match v with
  | DStr s =>
      map (fun c => DStr (String c EmptyString)) (list_ascii_of_string s)
  | DList l => map DStr l
  end.

(** [x in l] for a list [l]. *)
Definition list_contains (x : drugval) (l : list drugval) : bool :=
  existsb (drugval_eqb x) l.

(** [l[i]] and [l[i] = x] for [i] produced by [range]. *)
Definition list_getitem {A} (l : list A) (i : nat) : result A :=
  match nth_error l i with
  | Some x => Ok x
  | None => Raise IndexError
  end.

Fixpoint list_update {A} (l : list A) (i : nat) (x : A) : list A :=
  match l, i with
  | [], _ => []
  | _ :: rest, O => x :: rest
  | y :: rest, S j => y :: list_update rest j x
  end.

Definition list_setitem {A} (l : list A) (i : nat) (x : A)
  : result (list A) :=
  if i <? length l then Ok (list_update l i x) else Raise IndexError.

(** A [dict] from drug names to flags, in insertion order (the order
    [for drug in d] visits the keys). *)
Definition dict : Type := list (string * bool).

Fixpoint dict_get (d : dict) (k : string) : option bool :=
  match d with
  | [] => None
  | (k', v) :: rest => if String.eqb k k' then Some v else dict_get rest k
  end.

(** [d[k] = v]: an existing key keeps its place, a new key goes last. *)
Fixpoint dict_set (d : dict) (k : string) (v : bool) : dict :=
  match d with
  | [] => [(k, v)]
  | (k', v') :: rest =>
      if String.eqb k k' then (k, v) :: rest
      else (k', v') :: dict_set rest k v
  end.

Definition keys (d : dict) : list string := map fst d.

(** [d[k]]: a list is unhashable, an absent name is a [KeyError]. *)
Definition getitem (d : dict) (k : drugval) : result bool :=
  match k with
  | DList _ => Raise TypeError
  | DStr s =>
      match dict_get d s with
      | Some v => Ok v
      | None => Raise (KeyError s)
      end
  end.

(** [k in d] *)
Definition contains (d : dict) (k : drugval) : result bool :=
  match k with
  | DList _ => Raise TypeError
  | DStr s =>
      match dict_get d s with
      | Some _ => Ok true
      | None => Ok false
      end
  end.

(** What [isResistantTo] can return. *)
Inductive pyval : Type :=
| PyBool (b : bool)
| PyNone.

(** Truth value of a [pyval] under [not]/[if]. *)
Definition truth (v : pyval) : bool :=
  match v with
  | PyBool b => b
  | PyNone => false
  end.

(** ** class ResistantVirus(SimpleVirus) *)

Module ResistantVirus.

Record t : Type := mk {
  oid : nat;
  maxBirthProb : Q;
  clearProb : Q;
  resistances : dict;
  mutProb : Q
}.

(** [ResistantVirus(maxBirthProb, clearProb, resistances, mutProb)] *)
Definition new {E} (maxBirthProb clearProb : Q) (resistances : dict)
    (mutProb : Q) : M E t :=
  i <- fresh_id ;;
  ret (mk i maxBirthProb clearProb resistances mutProb).

(** The instance seen as a [SimpleVirus], for the inherited methods. *)
Definition base (self : t) : SimpleVirus.t :=
  SimpleVirus.mk (oid self) (maxBirthProb self) (clearProb self).

Definition getMaxBirthProb (self : t) : Q := maxBirthProb self.
Definition getClearProb (self : t) : Q := clearProb self.
Definition getResistances (self : t) : dict := resistances self.
Definition getMutProb (self : t) : Q := mutProb self.

Definition doesClear {E} (self : t) : M E bool :=
  SimpleVirus.doesClear (base self).

Definition isResistantTo (self : t) (drug : drugval) : result pyval :=
  rbind (contains (resistances self) drug) (fun present =>
  if present then
    rbind (getitem (resistances self) drug) (fun v =>
    if v then Ok (PyBool true) else Ok (PyBool false))
  else Ok PyNone).

(** Body of [for drug in activeDrugs] in [reproduce]: in
    [not self.resistances[drug] or not drug in self.resistances]
    the subscript is evaluated first. *)
Definition resist_step (self : t) (drug : drugval) (resist : bool)
  : result bool :=
  if negb (length (getResistances self) =? 0) then
    rbind (getitem (resistances self) drug) (fun v =>
    if negb v then Ok false
    else
      rbind (contains (resistances self) drug) (fun present =>
      if negb present then Ok false else Ok resist))
  else Ok resist.

(** Body of [for drug in self.resistances] in [reproduce]. *)
Definition mutate_step {E} (self : t) (drug : string)
    (newResistances : dict) : M E dict :=
  r <- random ;;
  if ge (1 - mutProb self)%Q r then
    v <- lift (getitem (resistances self) (DStr drug)) ;;
    ret (dict_set newResistances drug v)
  else
    v <- lift (getitem (resistances self) (DStr drug)) ;;
    ret (dict_set newResistances drug (negb v)).

Definition reproduce {E} (self : t) (popDensity : Q)
    (activeDrugs : list drugval) : M E t :=
  let resist := true in
  let newResistances : dict := [] in
  resist <- lift (rfor_each activeDrugs (resist_step self) resist) ;;
  if resist then
    newResistances <-
      (if negb (length (resistances self) =? 0)
       then for_each (keys (resistances self)) (mutate_step self)
              newResistances
       else ret newResistances) ;;
    r <- random ;;
    if ge (maxBirthProb self * (1 - popDensity))%Q r
    then new (maxBirthProb self) (clearProb self) newResistances
           (mutProb self)
    else raise NoChildException
  else raise NoChildException.

Definition truthy (_ : t) : bool := true.

End ResistantVirus.

(** ** class TreatedPatient(Patient) *)

Module TreatedPatient.

(** Calls made by [update] and, in the driver, to [getResistPop]. *)
Inductive event : Type :=
| DoesClear (i : ResistantVirus.t) (cleared : bool)
| SetPopDensity (d : Q)
| Reproduce (i : ResistantVirus.t) (popDensity : Q)
    (activeDrugs : list drugval) (out : result ResistantVirus.t)
| GetResistPop (drugResist : list drugval) (out : result nat).

(** [prescription] is the constructor's argument, [Prescriptions] the
    list of drugs being administered.  [survivorViruses], [newViruses],
    [popDensity] and [resistantViruses] are created by assignment in
    [update] and [getResistPop] before they are read. *)
Record t : Type := mk {
  viruses : list ResistantVirus.t;
  maxPop : Z;
  prescription : list drugval;
  Prescriptions : list drugval;
  survivorViruses : list ResistantVirus.t;
  newViruses : list ResistantVirus.t;
  popDensity : Q;
  resistantViruses : nat
}.

Definition new (viruses : list ResistantVirus.t) (maxPop : Z)
    (prescription : list drugval) : t :=
  mk viruses maxPop prescription [] [] [] 0%Q 0.

Definition getViruses (self : t) := viruses self.
Definition getMaxPop (self : t) := maxPop self.
Definition getTotalPop (self : t) : nat := length (viruses self).

Definition set_viruses (v : list ResistantVirus.t) (self : t) : t :=
  mk v (maxPop self) (prescription self) (Prescriptions self)
     (survivorViruses self) (newViruses self) (popDensity self)
     (resistantViruses self).
Definition set_Prescriptions (v : list drugval) (self : t) : t :=
  mk (viruses self) (maxPop self) (prescription self) v
     (survivorViruses self) (newViruses self) (popDensity self)
     (resistantViruses self).
Definition set_survivorViruses (v : list ResistantVirus.t) (self : t) : t :=
  mk (viruses self) (maxPop self) (prescription self) (Prescriptions self)
     v (newViruses self) (popDensity self) (resistantViruses self).
Definition set_newViruses (v : list ResistantVirus.t) (self : t) : t :=
  mk (viruses self) (maxPop self) (prescription self) (Prescriptions self)
     (survivorViruses self) v (popDensity self) (resistantViruses self).
Definition set_popDensity (d : Q) (self : t) : t :=
  mk (viruses self) (maxPop self) (prescription self) (Prescriptions self)
     (survivorViruses self) (newViruses self) d (resistantViruses self).
Definition set_resistantViruses (n : nat) (self : t) : t :=
  mk (viruses self) (maxPop self) (prescription self) (Prescriptions self)
     (survivorViruses self) (newViruses self) (popDensity self) n.

(** Body of [for d in newDrugs]: the loop variable is not used, the
    whole argument is tested and appended. *)
Definition addPrescription_step (newDrugs : drugval) (d : drugval)
    (self : t) : t :=
  if negb (list_contains newDrugs (Prescriptions self))
  then set_Prescriptions (Prescriptions self ++ [newDrugs]) self
  else self.

Definition addPrescription (newDrugs : drugval) (self : t) : t :=
  fold_left (fun self d => addPrescription_step newDrugs d self)
            (items newDrugs) self.

Definition getPrescriptions (self : t) : list drugval := Prescriptions self.

(** Body of [for d in drugResist] in [getResistPop]. *)
Definition resists_step (i : ResistantVirus.t) (d : drugval)
    (resists : bool) : result bool :=
  rbind (ResistantVirus.isResistantTo i d) (fun r =>
  if negb (truth r) then Ok false else Ok resists).

(** Body of [for i in self.viruses] in [getResistPop]. *)
Definition count_step (drugResist : list drugval) (i : ResistantVirus.t)
    (self : t) : result t :=
  let resists := true in
  rbind (rfor_each drugResist (resists_step i) resists) (fun resists =>
  if resists
  then Ok (set_resistantViruses (resistantViruses self + 1) self)
  else Ok self).

Definition getResistPop (drugResist : list drugval) (self : t)
  : result (nat * t) :=
  let self := set_resistantViruses 0 self in
  rbind (rfor_each (viruses self) (count_step drugResist) self) (fun self =>
  Ok (resistantViruses self, self)).

(** Body of the first loop of [update]. *)
Definition clear_step (i : ResistantVirus.t) (self : t) : M event t :=
  c <- ResistantVirus.doesClear i ;;
  record (DoesClear i c) ;;;
  if negb c
  then ret (set_survivorViruses (survivorViruses self ++ [i]) self)
  else ret self.

(** Body of [for d in self.Prescriptions] in [update]. *)
Definition reproductiv_step (i : ResistantVirus.t) (d : drugval)
    (reproductiv : bool) : result bool :=
  if negb (length (ResistantVirus.getResistances i) =? 0) then
    rbind (getitem (ResistantVirus.resistances i) d) (fun v =>
    if negb v then Ok false else Ok reproductiv)
  else Ok reproductiv.

(** The call [i.reproduce(self.popDensity, self.Prescriptions)], with
    its outcome recorded. *)
Definition call_reproduce (i : ResistantVirus.t) (d : Q)
    (activeDrugs : list drugval) : M event ResistantVirus.t :=
  fun w =>
    match ResistantVirus.reproduce i d activeDrugs w with
    | (out, w') =>
        (out, mkWorld (rng w') (pos w') (next_id w')
                      (calls w' ++ [Reproduce i d activeDrugs out]))
    end.

(** Body of the second loop of [update]: the returned offspring [pot]
    is what is appended to [newViruses]. *)
Definition reproduce_step (i : ResistantVirus.t) (self : t) : M event t :=
  let reproductiv := true in
  reproductiv <-
    lift (rfor_each (Prescriptions self) (reproductiv_step i) reproductiv) ;;
  try_except_NoChild
    (if reproductiv || (length (ResistantVirus.getResistances i) =? 0)
     then
       try_except_NoChild
         (pot <- call_reproduce i (popDensity self) (Prescriptions self) ;;
          if ResistantVirus.truthy pot
          then ret (set_newViruses (newViruses self ++ [pot]) self)
          else ret self)
         (ret self)
     else ret self)
    (ret self).

Definition update (self : t) : M event (nat * t) :=
  let self := set_survivorViruses [] self in
  let self := set_newViruses [] self in
  self <- for_each (viruses self) clear_step self ;;
  d <- lift (true_div (length (survivorViruses self)) (maxPop self)) ;;
  let self := set_popDensity d self in
  record (SetPopDensity d) ;;;
  self <- for_each (survivorViruses self) reproduce_step self ;;
  let self := set_viruses (survivorViruses self ++ newViruses self) self in
  ret (length (viruses self), self).

End TreatedPatient.

(** ** simulationWithDrug *)

(** [range(n)] *)
Definition range (n : nat) : list nat := seq 0 n.

(** An int as a number. *)
Definition num (n : nat) : Q := inject_Z (Z.of_nat n).

(** [x / n] for a number [x] and an int [n]. *)
Definition num_div (x : Q) (n : nat) : result Q :=
  if n =? 0 then Raise ZeroDivisionError else Ok (x / num n)%Q.

(** The local variables of [simulationWithDrug] that its loops carry. *)
Record sim_locals : Type := mkLocals {
  loc_yValues : list Q;
  loc_yDrugValues : list Q;
  loc_p : TreatedPatient.t
}.

(** The call [p.getResistPop(drugResist)], recorded. *)
Definition call_getResistPop (p : TreatedPatient.t)
    (drugResist : list drugval)
  : M TreatedPatient.event (nat * TreatedPatient.t) :=
  fun w =>
    let out := TreatedPatient.getResistPop drugResist p in
    (out, mkWorld (rng w) (pos w) (next_id w)
            (calls w ++
             [TreatedPatient.GetResistPop drugResist
                (rbind out (fun r => Ok (fst r)))])).

(** [if len(ys) == i: ys.append(v) else: ys[i] = ys[i] + v], for [v]
    already evaluated. *)
Definition add_at (ys : list Q) (i : nat) (v : Q) : result (list Q) :=
  if length ys =? i then Ok (ys ++ [v])
  else rbind (list_getitem ys i) (fun old => list_setitem ys i (old + v)%Q).

(** One time step and its two accumulations; [target] yields the
    argument of [getResistPop], read at the call. *)
Definition sim_step (target : TreatedPatient.t -> list drugval)
    (offset : nat) (i : nat) (st : sim_locals)
  : M TreatedPatient.event sim_locals :=
  r <- TreatedPatient.update (loc_p st) ;;
  let p := snd r in
  yValues <-
    for_each (range 1)
      (fun adder yValues =>
         lift (add_at yValues (i + offset)
                 (num (TreatedPatient.getTotalPop p))))
      (loc_yValues st) ;;
  yp <-
    for_each (range 1)
      (fun adder (yp : list Q * TreatedPatient.t) =>
         let (yDrugValues, p) := yp in
         if length yDrugValues =? i + offset then
           r <- call_getResistPop p (target p) ;;
           ret (yDrugValues ++ [num (fst r)], snd r)
         else
           old <- lift (list_getitem yDrugValues (i + offset)) ;;
           r <- call_getResistPop p (target p) ;;
           ys <- lift (list_setitem yDrugValues (i + offset)
                         (old + num (fst r))%Q) ;;
           ret (ys, snd r))
      (loc_yDrugValues st, p) ;;
  ret (mkLocals yValues (fst yp) (snd yp)).

(** Body of [for t in range(numTrials)]. *)
Definition trial (patient : TreatedPatient.t) (t : nat) (st : sim_locals)
  : M TreatedPatient.event sim_locals :=
  let p := TreatedPatient.new (TreatedPatient.viruses patient)
             (TreatedPatient.maxPop patient) [] in
  let st := mkLocals (loc_yValues st) (loc_yDrugValues st) p in
  st <- for_each (range 150)
          (sim_step (fun _ => TreatedPatient.getPrescriptions patient) 0) st ;;
  let p := fold_left (fun p d => TreatedPatient.addPrescription d p)
             (TreatedPatient.prescription patient) (loc_p st) in
  let st := mkLocals (loc_yValues st) (loc_yDrugValues st) p in
  for_each (range 150)
    (sim_step (fun p => TreatedPatient.getPrescriptions p) 150) st.

(** [for y in range(len(ys)): ys[y] = ys[y] / numTrials] *)
Definition average (ys : list Q) (numTrials : nat) : result (list Q) :=
  rfor_each (range (length ys))
    (fun y ys =>
       rbind (list_getitem ys y) (fun old =>
       rbind (num_div old numTrials) (fun q =>
       list_setitem ys y q)))
    ys.

(** The function up to the plotting calls; the result is the pair of
    sequences plotted.  [p] is unbound before the first trial, which
    assigns it before any use; the template stands in for it. *)
Definition simulationWithDrug (virus : ResistantVirus.t)
    (patient : TreatedPatient.t) (numTrials : nat)
  : M TreatedPatient.event (list Q * list Q) :=
  let yValues : list Q := [] in
  let yDrugValues : list Q := [] in
  let listViruses :=
    fold_left (fun l v => l ++ [virus]) (TreatedPatient.viruses patient) [] in
  st <- for_each (range numTrials) (trial patient)
          (mkLocals yValues yDrugValues patient) ;;
  yValues <- lift (average (loc_yValues st) numTrials) ;;
  yDrugValues <- lift (average (loc_yDrugValues st) numTrials) ;;
  ret (yValues, yDrugValues).

(** ** Vocabulary for the ghost call record *)

(** The calls recorded between two states of the world. *)
Definition new_calls {E} (w w' : world E) : list E :=
  skipn (length (calls w)) (calls w').

Module PatientCalls.
Import Patient.

Definition is_clear (e : event) : bool :=
  match e with DoesClear _ _ => true | _ => false end.

(** Number of [doesClear()] calls that returned [True]. *)
Definition cleared_count (evs : list event) : nat :=
  length (filter (fun e => match e with
                           | DoesClear _ true => true
                           | _ => false
                           end) evs).

(** The particles whose [doesClear()] call returned [False]. *)
Definition survivors_of (evs : list event) : list SimpleVirus.t :=
  flat_map (fun e => match e with
                     | DoesClear i false => [i]
                     | _ => []
                     end) evs.

(** The particles [doesClear()] was called on. *)
Definition clear_subjects (evs : list event) : list SimpleVirus.t :=
  flat_map (fun e => match e with
                     | DoesClear i _ => [i]
                     | _ => []
                     end) evs.

(** [e] is a call of [reproduce] with density [d]. *)
Definition reproduce_with (d : Q) (e : event) : Prop :=
  exists i out, e = Reproduce i d out.

(** The particles [reproduce] was called on. *)
Definition parents (evs : list event) : list SimpleVirus.t :=
  flat_map (fun e => match e with
                     | Reproduce i _ _ => [i]
                     | _ => []
                     end) evs.

(** The particles whose [reproduce] call returned an offspring. *)
Definition successful_parents (evs : list event) : list SimpleVirus.t :=
  flat_map (fun e => match e with
                     | Reproduce i _ (Ok _) => [i]
                     | _ => []
                     end) evs.

(** The offspring the calls of [reproduce] returned. *)
Definition offspring (evs : list event) : list SimpleVirus.t :=
  flat_map (fun e => match e with
                     | Reproduce _ _ (Ok c) => [c]
                     | _ => []
                     end) evs.

(** The calls the first loop of [update] makes on [vs] when the next
    draw is at position [k]. *)
Fixpoint clear_calls (r : nat -> Q) (k : nat) (vs : list SimpleVirus.t)
  : list event :=
  match vs with
  | [] => []
  | i :: rest =>
      DoesClear i (ge (SimpleVirus.clearProb i) (r k))
        :: clear_calls r (S k) rest
  end.
End PatientCalls.

Module TreatedCalls.
Import TreatedPatient.

Definition is_clear (e : event) : bool :=
  match e with DoesClear _ _ => true | _ => false end.

Definition cleared_count (evs : list event) : nat :=
  length (filter (fun e => match e with
                           | DoesClear _ true => true
                           | _ => false
                           end) evs).

Definition survivors_of (evs : list event) : list ResistantVirus.t :=
  flat_map (fun e => match e with
                     | DoesClear i false => [i]
                     | _ => []
                     end) evs.

Definition clear_subjects (evs : list event) : list ResistantVirus.t :=
  flat_map (fun e => match e with
                     | DoesClear i _ => [i]
                     | _ => []
                     end) evs.

(** [e] is a call of [reproduce] with density [d] and drugs [a]. *)
Definition reproduce_with (d : Q) (a : list drugval) (e : event) : Prop :=
  exists i out, e = Reproduce i d a out.

Definition parents (evs : list event) : list ResistantVirus.t :=
  flat_map (fun e => match e with
                     | Reproduce i _ _ _ => [i]
                     | _ => []
                     end) evs.

Definition offspring (evs : list event) : list ResistantVirus.t :=
  flat_map (fun e => match e with
                     | Reproduce _ _ _ (Ok c) => [c]
                     | _ => []
                     end) evs.

(** The arguments of the recorded [getResistPop] calls. *)
Definition resist_targets (evs : list event) : list (list drugval) :=
  flat_map (fun e => match e with
                     | GetResistPop l _ => [l]
                     | _ => []
                     end) evs.

Fixpoint clear_calls (r : nat -> Q) (k : nat) (vs : list ResistantVirus.t)
  : list event :=
  match vs with
  | [] => []
  | i :: rest =>
      DoesClear i (ge (ResistantVirus.clearProb i) (r k))
        :: clear_calls r (S k) rest
  end.

(** [d] is a name with an entry in [res]. *)
Definition known (res : dict) (d : drugval) : bool :=
  match d with
  | DStr s => match dict_get res s with Some _ => true | None => false end
  | DList _ => false
  end.

(** Every active drug has an entry in the particle's map, or the map
    is empty. *)
Definition configured (active : list drugval) (i : ResistantVirus.t)
  : bool :=
  (length (ResistantVirus.resistances i) =? 0)
  || forallb (known (ResistantVirus.resistances i)) active.
End TreatedCalls.

(** Outcome of a computation mapped through [f]. *)
Definition rmap {A B} (f : A -> B) (r : result A) : result B :=
  match r with
  | Ok a => Ok (f a)
  | Raise e => Raise e
  end.

(** ** A client of [TreatedPatient]

    Any sequence of method calls on one treated patient, with the
    answers the client sees; an exception ends the run. *)
Module Client.
Import TreatedPatient.

Inductive call : Type :=
| Update
| AddPrescription (newDrugs : drugval)
| GetPrescriptions
| GetResistPop (drugResist : list drugval)
| GetTotalPop
| GetViruses
| GetMaxPop.

Inductive answer : Type :=
| AInt (n : nat)
| ADrugs (l : list drugval)
| AViruses (l : list ResistantVirus.t)
| AMaxPop (z : Z)
| ANone
| AExn (e : exn).

Fixpoint run (cs : list call) (self : t) (w : world event)
  : list answer * world event :=
  match cs with
  | [] => ([], w)
  | c :: rest =>
      match c with
      | Update =>
          match update self w with
          | (Ok (n, self'), w') =>
              let (ans, w'') := run rest self' w' in (AInt n :: ans, w'')
          | (Raise e, w') => ([AExn e], w')
          end
      | AddPrescription newDrugs =>
          let (ans, w') := run rest (addPrescription newDrugs self) w in
          (ANone :: ans, w')
      | GetPrescriptions =>
          let (ans, w') := run rest self w in
          (ADrugs (getPrescriptions self) :: ans, w')
      | GetResistPop drugResist =>
          match getResistPop drugResist self with
          | Ok (n, self') =>
              let (ans, w') := run rest self' w in (AInt n :: ans, w')
          | Raise e => ([AExn e], w)
          end
      | GetTotalPop =>
          let (ans, w') := run rest self w in
          (AInt (getTotalPop self) :: ans, w')
      | GetViruses =>
          let (ans, w') := run rest self w in
          (AViruses (getViruses self) :: ans, w')
      | GetMaxPop =>
          let (ans, w') := run rest self w in
          (AMaxPop (getMaxPop self) :: ans, w')
      end
  end.

(** The same object with another value stored by the constructor. *)
Definition with_prescription (x : list drugval) (self : t) : t :=
  mk (viruses self) (maxPop self) x (Prescriptions self)
     (survivorViruses self) (newViruses self) (popDensity self)
     (resistantViruses self).
End Client.

(** ** The reading of [addPrescription] that appends each drug of the
    sequence: the list it would leave. *)
Definition addPrescription_each (drugs : drugval) (active : list drugval)
  : list drugval :=
  fold_left (fun acc d => if list_contains d acc then acc else acc ++ [d])
            (items drugs) active.

(** ** Conclusions about the calls of one [update] *)

(** The calls of [Patient.update] from [w]: the clearance calls, one
    assignment of the density, then calls of [reproduce] that all carry
    that density. *)
Definition Patient_single_density (self : Patient.t)
    (w : world Patient.event) : Prop :=
  exists cl rp d,
    new_calls w (snd (Patient.update self w))
      = cl ++ Patient.SetPopDensity d :: rp
    /\ forallb PatientCalls.is_clear cl = true
    /\ PatientCalls.clear_subjects cl = Patient.viruses self
    /\ d = (inject_Z (Z.of_nat (length (PatientCalls.survivors_of cl)))
            / inject_Z (Patient.maxPop self))%Q
    /\ Forall (PatientCalls.reproduce_with d) rp
    /\ PatientCalls.parents rp = PatientCalls.survivors_of cl
    /\ exists n self',
         fst (Patient.update self w) = Ok (n, self')
         /\ Patient.popDensity self' = d
         /\ Patient.survivorViruses self' = PatientCalls.survivors_of cl.

Definition Treated_single_density (self : TreatedPatient.t)
    (w : world TreatedPatient.event) : Prop :=
  exists cl rp d,
    new_calls w (snd (TreatedPatient.update self w))
      = cl ++ TreatedPatient.SetPopDensity d :: rp
    /\ forallb TreatedCalls.is_clear cl = true
    /\ TreatedCalls.clear_subjects cl = TreatedPatient.viruses self
    /\ d = (inject_Z (Z.of_nat (length (TreatedCalls.survivors_of cl)))
            / inject_Z (TreatedPatient.maxPop self))%Q
    /\ Forall (TreatedCalls.reproduce_with d
                 (TreatedPatient.Prescriptions self)) rp
    /\ incl (TreatedCalls.parents rp) (TreatedCalls.survivors_of cl)
    /\ forall n self',
         fst (TreatedPatient.update self w) = Ok (n, self') ->
         TreatedPatient.popDensity self' = d
         /\ TreatedPatient.survivorViruses self' = TreatedCalls.survivors_of cl.

(** ** Concrete inputs *)

Module Inputs.
(** A draw sequence that always yields [x]. *)
Definition always (x : Q) : nat -> Q := fun _ => x.

(** A world where identity 0 is taken and nothing has been drawn. *)
Definition start {E} (r : nat -> Q) : world E := mkWorld r 0 1 [].

Definition simple := SimpleVirus.mk 0 1 0.
Definition simple_child := SimpleVirus.mk 1 1 0.
Definition patient := Patient.new [simple] 10.

(** [ResistantVirus(1.0, 0.0, {"a": True}, 0.0)] *)
Definition resistant_a := ResistantVirus.mk 0 1 0 [("a"%string, true)] 0.
(** [ResistantVirus(0.0, 0.0, {"a": False}, 0.0)] *)
Definition susceptible_a :=
  ResistantVirus.mk 0 0 0 [("a"%string, false)] 0.
(** [ResistantVirus(1.0, 0.0, {}, 0.0)] *)
Definition no_traits := ResistantVirus.mk 0 1 0 [] 0.

(** A treated patient under drug "b", holding a particle whose map
    has an entry for "a" only. *)
Definition treated_b :=
  TreatedPatient.addPrescription (DStr "b")
    (TreatedPatient.new [resistant_a] 10 []).

(** The template patient of the treated driver: prescription ["a"],
    nothing administered yet. *)
Definition template :=
  TreatedPatient.new [susceptible_a] 10 [DStr "a"].

Definition untreated := TreatedPatient.new [resistant_a] 10 [].
End Inputs.

(** ** simulationWithoutDrug *)

(** Body of [for i in range(300)]: one time step of [initial] and the
    accumulation of its population at index [i]. *)
Definition plain_step (i : nat) (st : list Q * Patient.t)
  : M Patient.event (list Q * Patient.t) :=
  let (yValues, initial) := st in
  r <- Patient.update initial ;;
  let initial := snd r in
  yValues <- lift (add_at yValues i (num (Patient.getTotalPop initial))) ;;
  ret (yValues, initial).

(** Body of [for i in range(numTrials)]. *)
Definition plain_trial (listViruses : list SimpleVirus.t) (maxPop : Z)
    (t : nat) (yValues : list Q) : M Patient.event (list Q) :=
  let initial := Patient.new listViruses maxPop in
  st <- for_each (range 300) plain_step (yValues, initial) ;;
  ret (fst st).

(** The function up to the plotting calls; the result is the sequence
    plotted. *)
Definition simulationWithoutDrug (numViruses : nat) (maxPop : Z)
    (maxBirthProb clearProb : Q) (numTrials : nat)
  : M Patient.event (list Q) :=
  let yValues : list Q := [] in
  let listViruses : list SimpleVirus.t := [] in
  listViruses <-
    for_each (range numViruses)
      (fun i listViruses =>
         v <- SimpleVirus.new maxBirthProb clearProb ;;
         ret (listViruses ++ [v]))
      listViruses ;;
  yValues <- for_each (range numTrials) (plain_trial listViruses maxPop)
               yValues ;;
  yValues <- lift (average yValues numTrials) ;;
  ret yValues.

(** ** Vocabulary for resistance *)

(** [d] is a drug name. *)
Definition is_name (d : drugval) : bool :=
  match d with DStr _ => true | DList _ => false end.

(** [d] is a name whose entry in [res] is [True]. *)
Definition flag_true (res : dict) (d : drugval) : bool :=
  match d with
  | DStr s => match dict_get res s with Some true => true | _ => false end
  | DList _ => false
  end.

(** The particle passes the gate of [reproduce]: its map is empty, or
    every active drug is a name flagged [True] in it. *)
Definition eligible (active : list drugval) (i : ResistantVirus.t) : bool :=
  (length (ResistantVirus.resistances i) =? 0)
  || forallb (flag_true (ResistantVirus.resistances i)) active.

(** Number of particles flagged [True] for every drug of [drugs]. *)
Definition count_resistant (drugs : list drugval)
    (vs : list ResistantVirus.t) : nat :=
  length (filter (fun i => forallb (flag_true (ResistantVirus.resistances i))
                             drugs) vs).

(** The map handed to an offspring when the draws start at position
    [k]: an entry is kept when [1 - mutProb >= draw], flipped
    otherwise, one draw per entry in the order of the map. *)
Fixpoint mutate_flags (r : nat -> Q) (k : nat) (mutProb : Q) (res : dict)
  : dict :=
  match res with
  | [] => []
  | (name, v) :: rest =>
      (name, if ge (1 - mutProb)%Q (r k) then v else negb v)
        :: mutate_flags r (S k) mutProb rest
  end.

(** Every flag of the map negated. *)
Definition flip_flags (res : dict) : dict :=
  map (fun e => (fst e, negb (snd e))) res.

(** The drugs of [l] in order of first appearance. *)
Definition first_seen (l : list drugval) : list drugval :=
  fold_left (fun acc d => if list_contains d acc then acc else acc ++ [d])
            l [].

(** The live particles have pairwise distinct identities, all already
    handed out. *)
Definition distinct_identities (vs : list ResistantVirus.t) (next : nat)
  : Prop :=
  NoDup (map ResistantVirus.oid vs)
  /\ Forall (fun v => ResistantVirus.oid v < next) vs.

(** [n] successive calls of [update]; the result is the list of
    returned totals. *)
Fixpoint Patient_updates (n : nat) (self : Patient.t)
  : M Patient.event (list nat * Patient.t) :=
  match n with
  | O => ret ([], self)
  | S m =>
      r <- Patient.update self ;;
      rest <- Patient_updates m (snd r) ;;
      ret (fst r :: fst rest, snd rest)
  end.

Fixpoint Treated_updates (n : nat) (self : TreatedPatient.t)
  : M TreatedPatient.event (list nat * TreatedPatient.t) :=
  match n with
  | O => ret ([], self)
  | S m =>
      r <- TreatedPatient.update self ;;
      rest <- Treated_updates m (snd r) ;;
      ret (fst r :: fst rest, snd rest)
  end.

(** The calls the second loop of [Patient.update] makes on [vs] with
    density [d], when the next draw is at position [k] and the next
    free identity is [nid]. *)
Fixpoint Patient_reproduce_calls (r : nat -> Q) (k nid : nat) (d : Q)
    (vs : list SimpleVirus.t) : list Patient.event :=
  match vs with
  | [] => []
  | i :: rest =>
      if ge (SimpleVirus.maxBirthProb i * (1 - d))%Q (r k)
      then Patient.Reproduce i d
             (Ok (SimpleVirus.mk nid (SimpleVirus.maxBirthProb i)
                    (SimpleVirus.clearProb i)))
           :: Patient_reproduce_calls r (S k) (S nid) d rest
      else Patient.Reproduce i d (Raise NoChildException)
           :: Patient_reproduce_calls r (S k) nid d rest
  end.

(** [c] has the probabilities of [i] and a map with the same drug
    names. *)
Definition same_traits (i c : ResistantVirus.t) : Prop :=
  ResistantVirus.maxBirthProb c = ResistantVirus.maxBirthProb i
  /\ ResistantVirus.clearProb c = ResistantVirus.clearProb i
  /\ ResistantVirus.mutProb c = ResistantVirus.mutProb i
  /\ forall s, dict_get (ResistantVirus.resistances c) s = None
               <-> dict_get (ResistantVirus.resistances i) s = None.

(** A recorded call of [reproduce] that returned an offspring was made
    with the drugs [a] on a particle that passes the gate, and the
    offspring has the traits of that particle. *)
Definition sound_call (a : list drugval) (e : TreatedPatient.event) : Prop :=
  match e with
  | TreatedPatient.Reproduce i _ a' (Ok c) =>
      a' = a /\ eligible a i = true /\ same_traits i c
  | _ => True
  end.

(** Each total is at most the one before it, starting from [prev]. *)
Fixpoint non_increasing (prev : nat) (totals : list nat) : Prop :=
  match totals with
  | [] => True
  | x :: rest => x <= prev /\ non_increasing x rest
  end.

(** ** A treated patient under drug "a" holding a resistant and a
    susceptible particle, and the state one step leads to when every
    draw is 1/4: both survive, the density is 2/4, only the resistant
    particle has [reproduce] called on it, and it returns an
    offspring. *)
Module Mixed.
Definition susceptible := ResistantVirus.mk 1 1 0 [("a"%string, false)] 0.
Definition patient :=
  TreatedPatient.addPrescription (DStr "a")
    (TreatedPatient.new [Inputs.resistant_a; susceptible] 4 []).
Definition start : world TreatedPatient.event :=
  mkWorld (Inputs.always (1#4)) 0 2 [].
End Mixed.

(** * Properties *)

(** ** Generic facts *)

Lemma new_calls_app {E} (w : world E) r k n evs :
  new_calls w (mkWorld r k n (calls w ++ evs)) = evs.
Proof.
  unfold new_calls; simpl.
  induction (calls w) as [|c cs IH]; simpl; auto.
Qed.

Lemma world_eta {E} (w : world E) :
  mkWorld (rng w) (pos w) (next_id w) (calls w) = w.
Proof. destruct w; reflexivity. Qed.

(** ** Patient: the two loops of [update] *)

Section PatientLoops.
Import Patient PatientCalls.

Lemma Patient_clear_loop vs : forall self w,
  for_each vs clear_step self w =
  (Ok (set_survivorViruses
         (survivorViruses self ++ survivors_of (clear_calls (rng w) (pos w) vs))
         self),
   mkWorld (rng w) (pos w + length vs) (next_id w)
     (calls w ++ clear_calls (rng w) (pos w) vs)).
Proof.
  induction vs as [|i rest IH]; intros self w; simpl.
  - unfold ret. rewrite !app_nil_r, Nat.add_0_r, world_eta.
    destruct self; reflexivity.
  - unfold bind at 1. unfold clear_step at 1.
    unfold bind, SimpleVirus.doesClear, bind, random, record, ret; simpl.
    destruct (ge (SimpleVirus.clearProb i) (rng w (pos w))); simpl;
      rewrite IH; simpl; rewrite <- !app_assoc; simpl.
    all: replace (S (pos w + length rest)) with (pos w + S (length rest)) by lia.
    all: reflexivity.
Qed.

Lemma SimpleVirus_reproduce_run (i : SimpleVirus.t) d (w : world event) :
  SimpleVirus.reproduce i d w =
  if ge (SimpleVirus.maxBirthProb i * (1 - d))%Q (rng w (pos w))
  then (Ok (SimpleVirus.mk (next_id w) (SimpleVirus.maxBirthProb i)
              (SimpleVirus.clearProb i)),
        mkWorld (rng w) (S (pos w)) (S (next_id w)) (calls w))
  else (Raise NoChildException,
        mkWorld (rng w) (S (pos w)) (next_id w) (calls w)).
Proof.
  unfold SimpleVirus.reproduce, bind, random; simpl.
  destruct (ge _ _); reflexivity.
Qed.

(** One iteration of the second loop: one recorded call with the
    density attribute, and the parent appended on success. *)
Lemma Patient_reproduce_step_run i self w :
  exists out n,
    reproduce_step i self w =
    (Ok (set_newViruses
           (newViruses self ++
            successful_parents [Reproduce i (popDensity self) out]) self),
     mkWorld (rng w) (S (pos w)) n
       (calls w ++ [Reproduce i (popDensity self) out]))
    /\ next_id w <= n
    /\ Forall (fun c => next_id w <= SimpleVirus.oid c < n)
          (offspring [Reproduce i (popDensity self) out]).
Proof.
  unfold reproduce_step, try_except_NoChild, bind, call_reproduce.
  rewrite SimpleVirus_reproduce_run.
  destruct (ge _ _); simpl.
  - eexists (Ok _), (S (next_id w)). split; [reflexivity|].
    split; [lia|]. repeat constructor; simpl; lia.
  - exists (Raise NoChildException), (next_id w). unfold ret; simpl.
    rewrite app_nil_r. split; [destruct self; reflexivity|].
    split; [lia|constructor].
Qed.

Lemma Patient_reproduce_loop vs : forall self w,
  exists evs n,
    for_each vs reproduce_step self w =
    (Ok (set_newViruses (newViruses self ++ successful_parents evs) self),
     mkWorld (rng w) (pos w + length vs) n (calls w ++ evs))
    /\ Forall (reproduce_with (popDensity self)) evs
    /\ parents evs = vs
    /\ next_id w <= n
    /\ Forall (fun c => next_id w <= SimpleVirus.oid c < n) (offspring evs).
Proof.
  induction vs as [|i rest IH]; intros self w; simpl.
  - exists [], (next_id w). unfold ret.
    rewrite !app_nil_r, Nat.add_0_r, world_eta.
    repeat split; auto. destruct self; reflexivity.
  - destruct (Patient_reproduce_step_run i self w)
      as (out & n1 & Hstep & Hn1 & Hfresh1).
    unfold bind at 1. rewrite Hstep.
    match goal with |- context [for_each rest reproduce_step ?s ?w'] =>
      destruct (IH s w') as (evs & n & Hloop & Hd & Hp & Hn & Hfresh)
    end.
    simpl in *.
    exists (Reproduce i (popDensity self) out :: evs), n.
    rewrite Hloop. repeat split.
    + f_equal.
      * f_equal. unfold set_newViruses; simpl.
        destruct out; simpl; rewrite <- ?app_assoc; reflexivity.
      * rewrite <- app_assoc. simpl. f_equal. lia.
    + constructor; [exists i, out; reflexivity | exact Hd].
    + simpl. f_equal. exact Hp.
    + lia.
    + unfold offspring in *. simpl.
      apply Forall_app. split.
      * rewrite app_nil_r in Hfresh1.
        eapply Forall_impl; [|exact Hfresh1]. simpl; intros; lia.
      * eapply Forall_impl; [|exact Hfresh]. simpl; intros; lia.
Qed.

(** [update] on a patient with a zero [maxPop] stops at the division. *)
Lemma Patient_update_zero self w :
  maxPop self = 0%Z ->
  exists w', update self w = (Raise ZeroDivisionError, w').
Proof.
  intros H. unfold update. unfold bind at 1.
  rewrite Patient_clear_loop. simpl. unfold bind at 1, lift, true_div.
  simpl. rewrite H. simpl. eauto.
Qed.

(** [update] on a patient with a non-zero [maxPop]: the run in full. *)
Lemma Patient_update_run self w :
  maxPop self <> 0%Z ->
  let cl := clear_calls (rng w) (pos w) (viruses self) in
  let d := (inject_Z (Z.of_nat (length (survivors_of cl)))
            / inject_Z (maxPop self))%Q in
  exists rp n,
    update self w =
    (Ok (length (survivors_of cl) + length (successful_parents rp),
         mk (survivors_of cl ++ successful_parents rp) (maxPop self)
            (survivors_of cl) (successful_parents rp) d),
     mkWorld (rng w)
       (pos w + length (viruses self) + length (survivors_of cl)) n
       (calls w ++ cl ++ SetPopDensity d :: rp))
    /\ Forall (reproduce_with d) rp
    /\ parents rp = survivors_of cl
    /\ next_id w <= n
    /\ Forall (fun c => next_id w <= SimpleVirus.oid c < n) (offspring rp).
Proof.
  intros Hmax cl d. unfold update. unfold bind at 1.
  rewrite Patient_clear_loop. simpl. fold cl.
  unfold bind at 1, lift, true_div. simpl.
  destruct (Z.eqb_spec (maxPop self) 0) as [E|_]; [contradiction|].
  fold d. unfold bind at 1, record. simpl.
  unfold bind at 1.
  match goal with |- context [for_each ?vs reproduce_step ?s ?w'] =>
    destruct (Patient_reproduce_loop vs s w')
      as (rp & n & Hloop & Hd & Hp & Hn & Hfresh)
  end.
  simpl in *. exists rp, n. rewrite Hloop. unfold ret. simpl.
  repeat split; auto.
  rewrite length_app, <- !app_assoc. reflexivity.
Qed.

End PatientLoops.

(** ** ResistantVirus: runs of [reproduce] *)

Section ResistantVirusRuns.
Import ResistantVirus TreatedCalls.

Lemma dict_get_keys (d : dict) k :
  In k (keys d) -> exists v, dict_get d k = Some v.
Proof.
  induction d as [|[k' v'] rest IH]; simpl; [tauto|].
  intros [->|H].
  - rewrite String.eqb_refl. eauto.
  - destruct (String.eqb k k'); eauto.
Qed.

(** With an empty map the loop over the active drugs changes nothing. *)
Lemma resist_loop_empty self active acc :
  resistances self = [] ->
  rfor_each active (resist_step self) acc = Ok acc.
Proof.
  intros H. induction active as [|d rest IH]; simpl; auto.
  unfold resist_step at 1, getResistances. rewrite H. simpl. exact IH.
Qed.

(** When every active drug has an entry, the loop does not raise. *)
Lemma resist_loop_configured self active : forall acc,
  configured active self = true ->
  exists b, rfor_each active (resist_step self) acc = Ok b.
Proof.
  unfold configured. intros acc H.
  destruct (length (resistances self) =? 0) eqn:E; simpl in H.
  - apply Nat.eqb_eq in E. exists acc. apply resist_loop_empty.
    destruct (resistances self); [reflexivity|discriminate].
  - revert acc. induction active as [|d rest IH]; intros acc; simpl.
    + eauto.
    + simpl in H. apply andb_prop in H as [Hd Hrest].
      unfold resist_step at 1, getResistances. rewrite E. simpl.
      destruct d as [s|l]; simpl in Hd; [|discriminate].
      simpl. destruct (dict_get (resistances self) s) as [v|] eqn:G;
        [|discriminate].
      simpl. destruct v; simpl; auto.
Qed.

(** The loop over the keys draws once per key and does not raise. *)
Lemma mutate_loop_run {E} self ks : forall acc (w : world E),
  incl ks (keys (resistances self)) ->
  exists acc',
    for_each ks (mutate_step self) acc w =
    (Ok acc', mkWorld (rng w) (pos w + length ks) (next_id w) (calls w)).
Proof.
  induction ks as [|k rest IH]; intros acc w Hin; simpl.
  - exists acc. unfold ret. rewrite Nat.add_0_r, world_eta. reflexivity.
  - assert (Hk : In k (keys (resistances self))) by (apply Hin; left; auto).
    destruct (dict_get_keys _ _ Hk) as [v Hv].
    assert (Hrest : incl rest (keys (resistances self)))
      by (intros x Hx; apply Hin; right; auto).
    unfold bind at 1, mutate_step at 1, bind at 1, random. simpl.
    destruct (ge _ _); unfold bind, lift, ret; simpl; rewrite Hv;
      match goal with |- context [for_each rest _ ?a ?w'] =>
        destruct (IH a w' Hrest) as [acc' Hacc]
      end; rewrite Hacc; simpl; exists acc'; do 2 f_equal; lia.
Qed.

(** Shape of every run of [reproduce]: an offspring with the next free
    identity and the parent's probabilities, or [NoChildException], or
    -- only when some active drug has no entry in a non-empty map --
    another exception raised before any draw. *)
Lemma ResistantVirus_reproduce_shape {E} self d active (w : world E) :
  exists out k n,
    reproduce self d active w = (out, mkWorld (rng w) k n (calls w))
    /\ match out with
       | Ok c =>
           oid c = next_id w /\ n = S (next_id w)
           /\ maxBirthProb c = maxBirthProb self
           /\ clearProb c = clearProb self
           /\ mutProb c = mutProb self
       | Raise NoChildException => n = next_id w
       | Raise _ => n = next_id w /\ configured active self = false
       end.
Proof.
  unfold reproduce. unfold bind at 1, lift.
  destruct (rfor_each active (resist_step self) true) as [b|e] eqn:R.
  - destruct b.
    + match goal with |- context [bind (if ?c then ?a else ?b) _ w] =>
        assert (Hm : exists acc' k,
                   (if c then a else b) w
                   = (Ok acc', mkWorld (rng w) k (next_id w) (calls w)))
      end.
      { destruct (negb _).
        - destruct (mutate_loop_run self (keys (resistances self)) [] w
                      (incl_refl _)) as [acc' H].
          eauto.
        - exists [], (pos w). unfold ret. rewrite world_eta. reflexivity. }
      destruct Hm as (acc' & k & Hm).
      unfold bind at 1. rewrite Hm. unfold bind at 1, random. simpl.
      destruct (ge _ _).
      * unfold new, bind, fresh_id, ret. simpl.
        eexists (Ok _), _, _. split; [reflexivity|]. simpl. auto.
      * unfold raise. eexists (Raise NoChildException), _, _.
        split; [reflexivity|]. reflexivity.
    + unfold raise. exists (Raise NoChildException), (pos w), (next_id w).
      rewrite world_eta. split; reflexivity.
  - exists (Raise e), (pos w), (next_id w). rewrite world_eta.
    split; [reflexivity|].
    assert (Hc : configured active self = false).
    { destruct (configured active self) eqn:C; auto.
      destruct (resist_loop_configured self active true C) as [b Hb].
      congruence. }
    destruct e; auto.
Qed.

(** With an empty map the active drugs play no part: the call runs as
    it does with no active drug at all. *)
Lemma reproduce_empty_map_ignores_drugs {E} self d active (w : world E) :
  resistances self = [] ->
  reproduce self d active w = reproduce self d [] w.
Proof.
  intros H. unfold reproduce. unfold bind at 1 3, lift.
  rewrite (resist_loop_empty self active true H). reflexivity.
Qed.

End ResistantVirusRuns.

(** ** TreatedPatient: the two loops of [update] *)

Section TreatedLoops.
Import TreatedPatient TreatedCalls.

Lemma Treated_clear_loop vs : forall self w,
  for_each vs clear_step self w =
  (Ok (set_survivorViruses
         (survivorViruses self ++ survivors_of (clear_calls (rng w) (pos w) vs))
         self),
   mkWorld (rng w) (pos w + length vs) (next_id w)
     (calls w ++ clear_calls (rng w) (pos w) vs)).
Proof.
  induction vs as [|i rest IH]; intros self w; simpl.
  - unfold ret. rewrite !app_nil_r, Nat.add_0_r, world_eta.
    destruct self; reflexivity.
  - unfold bind at 1. unfold clear_step at 1.
    unfold bind, ResistantVirus.doesClear, SimpleVirus.doesClear, bind,
      random, record, ret; simpl.
    destruct (ge (ResistantVirus.clearProb i) (rng w (pos w))); simpl;
      rewrite IH; simpl; rewrite <- !app_assoc; simpl.
    all: replace (S (pos w + length rest)) with (pos w + S (length rest)) by lia.
    all: reflexivity.
Qed.

(** The check [for d in self.Prescriptions] raises nothing but
    [KeyError] or [TypeError]. *)
Lemma reproductiv_loop_raise i active : forall acc e,
  rfor_each active (reproductiv_step i) acc = Raise e ->
  e <> NoChildException.
Proof.
  induction active as [|d rest IH]; intros acc e; simpl; [discriminate|].
  unfold reproductiv_step at 1.
  destruct (negb _); simpl; [|apply IH].
  destruct d as [s|l]; simpl.
  - destruct (dict_get _ s) as [v|]; simpl.
    + destruct (negb v); apply IH.
    + intros H; inversion H; discriminate.
  - intros H; inversion H; discriminate.
Qed.

(** The check completes exactly on configured particles. *)
Lemma reproductiv_loop_ok i active : forall acc,
  configured active i = true <->
  exists b, rfor_each active (reproductiv_step i) acc = Ok b.
Proof.
  unfold configured. intros acc.
  destruct (length (ResistantVirus.resistances i) =? 0) eqn:E; simpl.
  - split; auto. intros _. exists acc.
    induction active as [|d rest IH]; simpl; auto.
    unfold reproductiv_step at 1, ResistantVirus.getResistances.
    rewrite E. simpl. exact IH.
  - revert acc. induction active as [|d rest IH]; intros acc; simpl.
    + split; eauto.
    + unfold reproductiv_step at 1, ResistantVirus.getResistances.
      rewrite E. simpl.
      destruct d as [s|l]; simpl.
      * destruct (dict_get _ s) as [v|]; simpl.
        -- destruct (negb v); apply IH.
        -- split; [discriminate|]. intros [b H]; discriminate.
      * split; [discriminate|]. intros [b H]; discriminate.
Qed.

(** One iteration of the second loop. *)
Lemma Treated_reproduce_step_run i self w :
  exists evs k n r,
    reproduce_step i self w = (r, mkWorld (rng w) k n (calls w ++ evs))
    /\ Forall (reproduce_with (popDensity self) (Prescriptions self)) evs
    /\ next_id w <= n
    /\ Forall (fun c => next_id w <= ResistantVirus.oid c < n)
         (offspring evs)
    /\ incl (parents evs) [i]
    /\ match r with
       | Ok self' =>
           self' = set_newViruses (newViruses self ++ offspring evs) self
           /\ configured (Prescriptions self) i = true
       | Raise e =>
           e <> NoChildException
           /\ configured (Prescriptions self) i = false
       end.
Proof.
  unfold reproduce_step. unfold bind at 1, lift.
  destruct (rfor_each (Prescriptions self) (reproductiv_step i) true)
    as [b|e] eqn:R.
  - assert (C : configured (Prescriptions self) i = true)
      by (apply (reproductiv_loop_ok i _ true); eauto).
    destruct (b || _).
    + unfold try_except_NoChild, bind, call_reproduce.
      destruct (ResistantVirus_reproduce_shape i (popDensity self)
                  (Prescriptions self) w) as (out & k & n & Hrun & Hout).
      rewrite Hrun.
      exists [Reproduce i (popDensity self) (Prescriptions self) out], k, n.
      destruct out as [c|e]; simpl.
      * destruct Hout as (Hid & Hn & _).
        eexists. split; [reflexivity|].
        split; [repeat constructor; eexists _, _; reflexivity|].
        split; [lia|]. split; [repeat constructor; lia|].
        split; [intros x Hx; exact Hx|]. auto.
      * destruct e; simpl in *;
          try (exfalso; destruct Hout; congruence).
        subst n. unfold ret. eexists. split; [reflexivity|].
        split; [repeat constructor; eexists _, _; reflexivity|].
        split; [lia|]. split; [constructor|].
        split; [intros x Hx; exact Hx|].
        split; auto. rewrite app_nil_r. destruct self; reflexivity.
    + unfold try_except_NoChild, ret.
      exists [], (pos w), (next_id w), (Ok self).
      rewrite app_nil_r, world_eta. split; [reflexivity|].
      split; [constructor|]. split; [lia|]. split; [constructor|].
      split; [intros x []|]. split; auto. simpl.
      rewrite app_nil_r. destruct self; reflexivity.
  - exists [], (pos w), (next_id w), (Raise e).
    rewrite app_nil_r, world_eta. split; [reflexivity|].
    split; [constructor|]. split; [lia|]. split; [constructor|].
    split; [intros x []|]. split.
    + eapply reproductiv_loop_raise; eauto.
    + destruct (configured (Prescriptions self) i) eqn:C; auto.
      apply (reproductiv_loop_ok i _ true) in C. destruct C; congruence.
Qed.

Lemma Treated_reproduce_loop vs : forall self w,
  exists evs k n r,
    for_each vs reproduce_step self w =
    (r, mkWorld (rng w) k n (calls w ++ evs))
    /\ Forall (reproduce_with (popDensity self) (Prescriptions self)) evs
    /\ next_id w <= n
    /\ Forall (fun c => next_id w <= ResistantVirus.oid c < n)
         (offspring evs)
    /\ incl (parents evs) vs
    /\ match r with
       | Ok self' =>
           self' = set_newViruses (newViruses self ++ offspring evs) self
           /\ forallb (configured (Prescriptions self)) vs = true
       | Raise e =>
           e <> NoChildException
           /\ forallb (configured (Prescriptions self)) vs = false
       end.
Proof.
  induction vs as [|i rest IH]; intros self w; simpl.
  - exists [], (pos w), (next_id w), (Ok self). unfold ret.
    rewrite !app_nil_r, world_eta. simpl.
    repeat split; auto; try constructor.
    + intros x [].
    + destruct self; reflexivity.
  - destruct (Treated_reproduce_step_run i self w)
      as (ev1 & k1 & n1 & r1 & Hstep & Hd1 & Hn1 & Hf1 & Hp1 & Hr1).
    unfold bind at 1. rewrite Hstep.
    destruct r1 as [self1|e].
    + destruct Hr1 as [-> Hc].
      match goal with |- context [for_each rest reproduce_step ?s ?w'] =>
        destruct (IH s w')
          as (evs & k & n & r & Hloop & Hd & Hn & Hf & Hp & Hr)
      end.
      simpl in *. rewrite Hloop.
      exists (ev1 ++ evs), k, n, r.
      rewrite <- app_assoc. split; [reflexivity|].
      split; [apply Forall_app; auto|].
      split; [lia|].
      split.
      { unfold offspring in *. rewrite flat_map_app. apply Forall_app. split.
        - eapply Forall_impl; [|exact Hf1]. simpl; intros; lia.
        - eapply Forall_impl; [|exact Hf]. simpl; intros; lia. }
      split.
      { unfold parents in *. rewrite flat_map_app.
        intros x Hx. apply in_app_or in Hx as [Hx|Hx].
        - apply Hp1 in Hx. destruct Hx as [<-|[]]. left; auto.
        - right. apply Hp; auto. }
      destruct r as [self'|e].
      * destruct Hr as [-> Hall]. rewrite Hc, Hall. split; auto.
        unfold set_newViruses, offspring; simpl.
        rewrite flat_map_app, <- app_assoc. reflexivity.
      * destruct Hr as [Hne Hall]. rewrite Hall, andb_false_r. auto.
    + destruct Hr1 as [Hne Hc].
      exists ev1, k1, n1, (Raise e). split; [reflexivity|].
      split; auto. split; auto. split; auto.
      split.
      { intros x Hx. apply Hp1 in Hx. destruct Hx as [<-|[]]. left; auto. }
      rewrite Hc. auto.
Qed.

Lemma Treated_update_zero self w :
  maxPop self = 0%Z ->
  exists w', update self w = (Raise ZeroDivisionError, w').
Proof.
  intros H. unfold update. unfold bind at 1.
  rewrite Treated_clear_loop. simpl. unfold bind at 1, lift, true_div.
  simpl. rewrite H. simpl. eauto.
Qed.

(** [update] on a treated patient with a non-zero [maxPop]. *)
Lemma Treated_update_run self w :
  maxPop self <> 0%Z ->
  let cl := clear_calls (rng w) (pos w) (viruses self) in
  let d := (inject_Z (Z.of_nat (length (survivors_of cl)))
            / inject_Z (maxPop self))%Q in
  exists rp k n r,
    update self w =
    (r, mkWorld (rng w) k n (calls w ++ cl ++ SetPopDensity d :: rp))
    /\ Forall (reproduce_with d (Prescriptions self)) rp
    /\ next_id w <= n
    /\ Forall (fun c => next_id w <= ResistantVirus.oid c < n)
         (offspring rp)
    /\ incl (parents rp) (survivors_of cl)
    /\ match r with
       | Ok (m, self') =>
           m = length (survivors_of cl) + length (offspring rp)
           /\ self' = mk (survivors_of cl ++ offspring rp) (maxPop self)
                        (prescription self) (Prescriptions self)
                        (survivors_of cl) (offspring rp) d
                        (resistantViruses self)
       | Raise e =>
           e <> NoChildException
           /\ forallb (configured (Prescriptions self)) (survivors_of cl)
              = false
       end.
Proof.
  intros Hmax cl d. unfold update. unfold bind at 1.
  rewrite Treated_clear_loop. simpl. fold cl.
  unfold bind at 1, lift, true_div. simpl.
  destruct (Z.eqb_spec (maxPop self) 0) as [E|_]; [contradiction|].
  fold d. unfold bind at 1, record. simpl.
  unfold bind at 1.
  match goal with |- context [for_each ?vs reproduce_step ?s ?w'] =>
    destruct (Treated_reproduce_loop vs s w')
      as (rp & k & n & r & Hloop & Hd & Hn & Hf & Hp & Hr)
  end.
  simpl in *. exists rp, k, n. rewrite Hloop.
  destruct r as [self'|e].
  - destruct Hr as [-> _]. unfold ret. simpl.
    eexists (Ok (_, _)). rewrite <- !app_assoc.
    split; [reflexivity|]. repeat split; auto.
    apply length_app.
  - exists (Raise e). rewrite <- !app_assoc. split; [reflexivity|].
    repeat split; auto; apply Hr.
Qed.

End TreatedLoops.

(** ** Counting in the call record *)

Section PatientCounting.
Import Patient PatientCalls.

Lemma Patient_clear_calls_shape r vs : forall k,
  forallb is_clear (clear_calls r k vs) = true
  /\ clear_subjects (clear_calls r k vs) = vs
  /\ length (survivors_of (clear_calls r k vs))
     + cleared_count (clear_calls r k vs) = length vs.
Proof.
  induction vs as [|i rest IH]; intros k; simpl; auto.
  destruct (IH (S k)) as (H1 & H2 & H3).
  split; [exact H1|]. split; [f_equal; exact H2|].
  unfold cleared_count in *. simpl.
  destruct (ge _ _); simpl; lia.
Qed.

Lemma Patient_cleared_count_app a b :
  cleared_count (a ++ b) = cleared_count a + cleared_count b.
Proof.
  unfold cleared_count. rewrite filter_app, length_app. reflexivity.
Qed.

Lemma Patient_reproduce_calls_count d rp :
  Forall (reproduce_with d) rp ->
  cleared_count rp = 0
  /\ length (successful_parents rp) = length (offspring rp).
Proof.
  unfold cleared_count.
  induction 1 as [|e rest (i & out & ->) _ [IH1 IH2]]; simpl; auto.
  split; [exact IH1|]. destruct out; simpl; auto.
Qed.

Lemma Patient_update_calls_count r k vs d rp :
  offspring (clear_calls r k vs ++ SetPopDensity d :: rp) = offspring rp
  /\ cleared_count (clear_calls r k vs ++ SetPopDensity d :: rp)
     = cleared_count (clear_calls r k vs) + cleared_count rp.
Proof.
  split.
  - unfold offspring. rewrite flat_map_app. simpl.
    replace (flat_map _ (clear_calls r k vs)) with (@nil SimpleVirus.t);
      [reflexivity|].
    revert k; induction vs; intros; simpl; auto.
  - rewrite Patient_cleared_count_app. reflexivity.
Qed.

End PatientCounting.

Section TreatedCounting.
Import TreatedPatient TreatedCalls.

Lemma Treated_clear_calls_shape r vs : forall k,
  forallb is_clear (clear_calls r k vs) = true
  /\ clear_subjects (clear_calls r k vs) = vs
  /\ length (survivors_of (clear_calls r k vs))
     + cleared_count (clear_calls r k vs) = length vs
  /\ incl (survivors_of (clear_calls r k vs)) vs.
Proof.
  induction vs as [|i rest IH]; intros k; simpl.
  - repeat split; auto. intros x [].
  - destruct (IH (S k)) as (H1 & H2 & H3 & H4).
    split; [exact H1|]. split; [f_equal; exact H2|].
    unfold cleared_count in *. simpl.
    destruct (ge _ _); simpl; split; try lia.
    + intros x Hx. right. apply H4; auto.
    + intros x [Hx|Hx]; [left; auto|right; apply H4; auto].
Qed.

Lemma Treated_cleared_count_app a b :
  cleared_count (a ++ b) = cleared_count a + cleared_count b.
Proof.
  unfold cleared_count. rewrite filter_app, length_app. reflexivity.
Qed.

Lemma Treated_reproduce_calls_count d a rp :
  Forall (reproduce_with d a) rp -> cleared_count rp = 0.
Proof.
  unfold cleared_count.
  induction 1 as [|e rest (i & out & ->) _ IH]; simpl; auto.
Qed.

Lemma forallb_incl {A} (f : A -> bool) (xs ys : list A) :
  incl xs ys -> forallb f xs = false -> forallb f ys = false.
Proof.
  intros Hincl Hx. destruct (forallb f ys) eqn:Hy; auto.
  rewrite forallb_forall in Hy.
  assert (forallb f xs = true)
    by (apply forallb_forall; intros x Hin; apply Hy, Hincl, Hin).
  congruence.
Qed.

Lemma Treated_update_calls_count r k vs d rp :
  offspring (clear_calls r k vs ++ SetPopDensity d :: rp) = offspring rp
  /\ cleared_count (clear_calls r k vs ++ SetPopDensity d :: rp)
     = cleared_count (clear_calls r k vs) + cleared_count rp.
Proof.
  split.
  - unfold offspring. rewrite flat_map_app. simpl.
    replace (flat_map _ (clear_calls r k vs)) with (@nil ResistantVirus.t);
      [reflexivity|].
    revert k; induction vs; intros; simpl; auto.
  - rewrite Treated_cleared_count_app. reflexivity.
Qed.

End TreatedCounting.

(** ** Population accounting and the density of one step *)

(** C8.  For every update step of either container and every sequence of
    draws: when [update] returns, the returned total is the number of
    survivors plus the number of offspring appended (it is also the new
    length of the live list), and survivors plus the particles whose
    [doesClear()] returned true make up the population before the step.
    [Patient.update] fails to return only on a zero [maxPop];
    [TreatedPatient.update] only on a zero [maxPop] or when a live
    particle meets an active drug that has no entry in its non-empty
    map. *)
Theorem update_population_accounting :
  (forall (self : Patient.t) (w : world Patient.event),
     match Patient.update self w with
     | (Ok (n, self'), w') =>
         n = length (Patient.survivorViruses self')
             + length (Patient.newViruses self')
         /\ n = Patient.getTotalPop self'
         /\ length (Patient.newViruses self')
            = length (PatientCalls.offspring (new_calls w w'))
         /\ length (Patient.survivorViruses self')
            + PatientCalls.cleared_count (new_calls w w')
            = Patient.getTotalPop self
     | (Raise e, _) => e = ZeroDivisionError /\ Patient.maxPop self = 0%Z
     end)
  /\
  (forall (self : TreatedPatient.t) (w : world TreatedPatient.event),
     match TreatedPatient.update self w with
     | (Ok (n, self'), w') =>
         n = length (TreatedPatient.survivorViruses self')
             + length (TreatedPatient.newViruses self')
         /\ n = TreatedPatient.getTotalPop self'
         /\ length (TreatedPatient.newViruses self')
            = length (TreatedCalls.offspring (new_calls w w'))
         /\ length (TreatedPatient.survivorViruses self')
            + TreatedCalls.cleared_count (new_calls w w')
            = TreatedPatient.getTotalPop self
     | (Raise e, _) =>
         e <> NoChildException
         /\ (TreatedPatient.maxPop self = 0%Z
             \/ forallb (TreatedCalls.configured
                           (TreatedPatient.Prescriptions self))
                  (TreatedPatient.viruses self) = false)
     end).
Proof.
  split; intros self w.
  - destruct (Z.eq_dec (Patient.maxPop self) 0) as [Hz|Hnz].
    + destruct (Patient_update_zero self w Hz) as [w' ->]. auto.
    + destruct (Patient_update_run self w Hnz)
        as (rp & n & -> & Hd & Hp & _ & _).
      rewrite new_calls_app.
      destruct (Patient_clear_calls_shape (rng w) (Patient.viruses self) (pos w))
        as (_ & _ & Hcount).
      destruct (Patient_reproduce_calls_count _ _ Hd) as [Hc0 Hlen].
      destruct (Patient_update_calls_count (rng w) (pos w)
                  (Patient.viruses self)
                  (inject_Z (Z.of_nat (length (PatientCalls.survivors_of
                     (PatientCalls.clear_calls (rng w) (pos w)
                        (Patient.viruses self)))))
                   / inject_Z (Patient.maxPop self))%Q rp) as [-> ->].
      unfold Patient.getTotalPop. cbn [Patient.viruses Patient.survivorViruses
        Patient.newViruses].
      rewrite length_app, Hc0.
      repeat split; auto. lia.
  - destruct (Z.eq_dec (TreatedPatient.maxPop self) 0) as [Hz|Hnz].
    + destruct (Treated_update_zero self w Hz) as [w' ->].
      split; [discriminate|auto].
    + destruct (Treated_update_run self w Hnz)
        as (rp & k & n & r & -> & Hd & _ & _ & _ & Hr).
      destruct (Treated_clear_calls_shape (rng w)
                  (TreatedPatient.viruses self) (pos w))
        as (_ & _ & Hcount & Hincl).
      destruct r as [[m self']|e].
      * destruct Hr as [-> ->]. rewrite new_calls_app.
        destruct (Treated_update_calls_count (rng w) (pos w)
                    (TreatedPatient.viruses self)
                    (inject_Z (Z.of_nat (length (TreatedCalls.survivors_of
                       (TreatedCalls.clear_calls (rng w) (pos w)
                          (TreatedPatient.viruses self)))))
                     / inject_Z (TreatedPatient.maxPop self))%Q rp) as [-> ->].
        unfold TreatedPatient.getTotalPop.
        cbn [TreatedPatient.viruses TreatedPatient.survivorViruses
             TreatedPatient.newViruses].
        rewrite length_app, (Treated_reproduce_calls_count _ _ _ Hd).
        repeat split; auto. lia.
      * destruct Hr as [Hne Hcfg]. split; [exact Hne|]. right.
        eapply forallb_incl; eauto.
Qed.

(** C9.  Within one [update] call of either container (with a non-zero
    [maxPop]) the density is assigned exactly once, after all the
    clearance calls and before any call of [reproduce]; its value is the
    number of survivors of the clearance divided by [maxPop]; and every
    call of [reproduce] made in that step receives that value. *)
Theorem update_single_density :
  (forall (self : Patient.t) (w : world Patient.event),
     Patient.maxPop self <> 0%Z -> Patient_single_density self w)
  /\
  (forall (self : TreatedPatient.t) (w : world TreatedPatient.event),
     TreatedPatient.maxPop self <> 0%Z -> Treated_single_density self w).
Proof.
  split; intros self w Hnz.
  - destruct (Patient_update_run self w Hnz)
      as (rp & n & Hrun & Hd & Hp & _ & _).
    destruct (Patient_clear_calls_shape (rng w) (Patient.viruses self) (pos w))
      as (Hcl & Hsub & _).
    unfold Patient_single_density. rewrite Hrun.
    cbn [fst snd]. rewrite new_calls_app.
    eexists _, rp, _. split; [reflexivity|].
    split; [exact Hcl|]. split; [exact Hsub|]. split; [reflexivity|].
    split; [exact Hd|]. split; [exact Hp|].
    eexists _, _. split; [reflexivity|]. split; reflexivity.
  - destruct (Treated_update_run self w Hnz)
      as (rp & k & n & r & Hrun & Hd & _ & _ & Hp & Hr).
    destruct (Treated_clear_calls_shape (rng w)
                (TreatedPatient.viruses self) (pos w))
      as (Hcl & Hsub & _).
    unfold Treated_single_density. rewrite Hrun.
    cbn [fst snd]. rewrite new_calls_app.
    eexists _, rp, _. split; [reflexivity|].
    split; [exact Hcl|]. split; [exact Hsub|]. split; [reflexivity|].
    split; [exact Hd|]. split; [exact Hp|].
    intros m self' Heq. subst r. destruct Hr as [_ ->]. split; reflexivity.
Qed.

(** The density property on a one-particle patient and a one-particle
    treated patient, both with [maxPop = 10]. *)
Lemma update_single_density_witness :
  Patient_single_density Inputs.patient (Inputs.start (Inputs.always (1#2)))
  /\ Treated_single_density Inputs.untreated
       (Inputs.start (Inputs.always (1#2))).
Proof.
  split.
  - apply (proj1 update_single_density). simpl. lia.
  - apply (proj2 update_single_density). simpl. lia.
Defined.

(** ** The stored [prescription] is inert *)

Section PrescriptionInert.
Import TreatedPatient Client.

Variable x : list drugval.

Lemma for_each_commute {E A B} (f : B -> B) (body : A -> B -> M E B) xs :
  (forall a acc w, body a (f acc) w = (rmap f (fst (body a acc w)),
                                       snd (body a acc w))) ->
  forall acc w,
    for_each xs body (f acc) w =
    (rmap f (fst (for_each xs body acc w)), snd (for_each xs body acc w)).
Proof.
  intros Hbody. induction xs as [|a rest IH]; intros acc w; simpl.
  - reflexivity.
  - unfold bind. rewrite Hbody.
    destruct (body a acc w) as [[acc'|e] w']; simpl; auto.
Qed.

Lemma rfor_each_commute {A B} (f : B -> B) (body : A -> B -> result B) xs :
  (forall a acc, body a (f acc) = rmap f (body a acc)) ->
  forall acc, rfor_each xs body (f acc) = rmap f (rfor_each xs body acc).
Proof.
  intros Hbody. induction xs as [|a rest IH]; intros acc; simpl.
  - reflexivity.
  - rewrite Hbody. destruct (body a acc); simpl; auto.
Qed.

Lemma clear_step_inert i self w :
  clear_step i (with_prescription x self) w =
  (rmap (with_prescription x) (fst (clear_step i self w)),
   snd (clear_step i self w)).
Proof.
  unfold clear_step, bind, ResistantVirus.doesClear, SimpleVirus.doesClear,
    bind, random, record, ret. simpl.
  destruct (ge _ _); reflexivity.
Qed.

Lemma reproduce_step_inert i self w :
  reproduce_step i (with_prescription x self) w =
  (rmap (with_prescription x) (fst (reproduce_step i self w)),
   snd (reproduce_step i self w)).
Proof.
  unfold reproduce_step, bind, lift. simpl.
  destruct (rfor_each (Prescriptions self) (reproductiv_step i) true)
    as [b|e]; [|reflexivity].
  destruct (b || _); [|reflexivity].
  unfold try_except_NoChild, bind, call_reproduce.
  destruct (ResistantVirus.reproduce i (popDensity self)
              (Prescriptions self) w) as [[c|e] w']; [reflexivity|].
  destruct e; reflexivity.
Qed.

Lemma update_inert self w :
  update (with_prescription x self) w =
  (rmap (fun r => (fst r, with_prescription x (snd r)))
        (fst (update self w)),
   snd (update self w)).
Proof.
  unfold update, bind, lift, record, ret.
  change (set_newViruses [] (set_survivorViruses [] (with_prescription x self)))
    with (with_prescription x (set_newViruses [] (set_survivorViruses [] self))).
  set (self0 := set_newViruses [] (set_survivorViruses [] self)).
  change (viruses (with_prescription x self0)) with (viruses self0).
  rewrite (for_each_commute (with_prescription x) clear_step
             (viruses self0) clear_step_inert).
  destruct (for_each (viruses self0) clear_step self0 w)
    as [[self1|e] w1]; [|reflexivity].
  cbn [fst snd rmap].
  change (survivorViruses (with_prescription x self1))
    with (survivorViruses self1).
  change (maxPop (with_prescription x self1)) with (maxPop self1).
  destruct (true_div _ _) as [d|e]; [|reflexivity].
  change (set_popDensity d (with_prescription x self1))
    with (with_prescription x (set_popDensity d self1)).
  set (self2 := set_popDensity d self1).
  change (survivorViruses (with_prescription x self2))
    with (survivorViruses self2).
  rewrite (for_each_commute (with_prescription x) reproduce_step
             (survivorViruses self2) reproduce_step_inert).
  match goal with |- context [for_each ?vs reproduce_step self2 ?w2] =>
    destruct (for_each vs reproduce_step self2 w2) as [[self3|e] w3]
  end; reflexivity.
Qed.

Lemma addPrescription_inert newDrugs self :
  addPrescription newDrugs (with_prescription x self) =
  with_prescription x (addPrescription newDrugs self).
Proof.
  unfold addPrescription. revert self.
  induction (items newDrugs) as [|d rest IH]; intros self; simpl; auto.
  rewrite <- IH. f_equal.
  unfold addPrescription_step. simpl. destruct (negb _); reflexivity.
Qed.

Lemma getResistPop_inert drugResist self :
  getResistPop drugResist (with_prescription x self) =
  rmap (fun r => (fst r, with_prescription x (snd r)))
       (getResistPop drugResist self).
Proof.
  unfold getResistPop.
  change (set_resistantViruses 0 (with_prescription x self))
    with (with_prescription x (set_resistantViruses 0 self)).
  set (self0 := set_resistantViruses 0 self).
  change (viruses (with_prescription x self0)) with (viruses self0).
  rewrite (rfor_each_commute (with_prescription x)).
  - destruct (rfor_each (viruses self0) (count_step drugResist) self0);
      reflexivity.
  - intros i acc. unfold count_step.
    destruct (rfor_each drugResist (resists_step i) true) as [[|]|e];
      reflexivity.
Qed.

Lemma run_inert cs : forall self w,
  run cs (with_prescription x self) w = run cs self w.
Proof.
  induction cs as [|c rest IH]; intros self w; simpl; auto.
  destruct c.
  - rewrite update_inert.
    destruct (update self w) as [[[n self']|e] w']; simpl; auto.
    rewrite IH. reflexivity.
  - rewrite addPrescription_inert, IH. reflexivity.
  - rewrite IH. reflexivity.
  - rewrite getResistPop_inert.
    destruct (getResistPop drugResist self) as [[n self']|e]; simpl; auto.
    rewrite IH. reflexivity.
  - rewrite IH. reflexivity.
  - rewrite IH. reflexivity.
  - rewrite IH. reflexivity.
Qed.

End PrescriptionInert.

(** C10.  The constructor's [prescription] argument never influences
    the dynamics: two treated patients built from the same viruses and
    [maxPop] but different [prescription] arguments give, for every
    sequence of calls of [update], [addPrescription] and the queries and
    for every draw sequence, the same answers (update results, query
    results, exceptions) and leave the same random position, allocator
    and call record. *)
Theorem prescription_argument_is_inert :
  forall viruses maxPop (prescription1 prescription2 : list drugval)
         (cs : list Client.call) (w : world TreatedPatient.event),
    Client.run cs (TreatedPatient.new viruses maxPop prescription1) w =
    Client.run cs (TreatedPatient.new viruses maxPop prescription2) w.
Proof.
  intros viruses maxPop p1 p2 cs w.
  change (TreatedPatient.new viruses maxPop p1)
    with (Client.with_prescription p1 (TreatedPatient.new viruses maxPop p2)).
  apply run_inert.
Qed.

(** ** addPrescription *)

Section AddPrescription.
Import TreatedPatient.

Lemma drugval_eqb_eq a b : drugval_eqb a b = true <-> a = b.
Proof.
  destruct a as [s|l], b as [s'|l']; simpl;
    try (split; [discriminate|intros H; inversion H]).
  - rewrite String.eqb_eq. split; [intros ->; auto|intros H; inversion H; auto].
  - destruct (list_eq_dec string_dec l l') as [->|Hne]; split; auto;
      try discriminate.
    intros H; inversion H; contradiction.
Qed.

Lemma list_contains_In x l : list_contains x l = true <-> In x l.
Proof.
  unfold list_contains. rewrite existsb_exists. split.
  - intros (y & Hy & Heq). apply drugval_eqb_eq in Heq. subst; auto.
  - intros H. exists x. split; auto. apply drugval_eqb_eq; auto.
Qed.

(** Once the argument is in the list, no iteration changes anything. *)
Lemma addPrescription_loop_present newDrugs ds : forall self,
  list_contains newDrugs (Prescriptions self) = true ->
  fold_left (fun self d => addPrescription_step newDrugs d self) ds self
  = self.
Proof.
  induction ds as [|d rest IH]; intros self H; simpl; auto.
  unfold addPrescription_step at 2. rewrite H. simpl. apply IH, H.
Qed.

(** What a call does, for any argument: nothing when the argument has
    no items or is already in the list; otherwise the argument itself
    becomes the last element. *)
Lemma addPrescription_run newDrugs self :
  addPrescription newDrugs self =
  if match items newDrugs with [] => true | _ => false end
     || list_contains newDrugs (Prescriptions self)
  then self
  else set_Prescriptions (Prescriptions self ++ [newDrugs]) self.
Proof.
  unfold addPrescription.
  destruct (items newDrugs) as [|d rest]; simpl; auto.
  unfold addPrescription_step at 2.
  destruct (list_contains newDrugs (Prescriptions self)) eqn:C; simpl.
  - apply addPrescription_loop_present, C.
  - apply addPrescription_loop_present. simpl.
    apply list_contains_In, in_or_app. right; left; auto.
Qed.

Lemma items_of_name s : s <> EmptyString -> items (DStr s) <> [].
Proof. destruct s; simpl; [congruence|discriminate]. Qed.

End AddPrescription.

(** C6, as the code has it.  For every treated patient and every
    non-empty drug name passed as the argument, [addPrescription]
    appends that name, as one element, at the end of the list of
    administered drugs when it is not yet there and changes nothing when
    it is; the elements already there keep their order; a list without
    duplicates stays without duplicates; a repeated call changes
    nothing. *)
Theorem addPrescription_of_a_drug_name :
  forall (s : string) (self : TreatedPatient.t),
    s <> EmptyString ->
    TreatedPatient.addPrescription (DStr s) self
    = (if list_contains (DStr s) (TreatedPatient.Prescriptions self)
       then self
       else TreatedPatient.set_Prescriptions
              (TreatedPatient.Prescriptions self ++ [DStr s]) self)
    /\ TreatedPatient.addPrescription (DStr s)
         (TreatedPatient.addPrescription (DStr s) self)
       = TreatedPatient.addPrescription (DStr s) self
    /\ (NoDup (TreatedPatient.Prescriptions self) ->
        NoDup (TreatedPatient.Prescriptions
                 (TreatedPatient.addPrescription (DStr s) self))).
Proof.
  intros s self Hs.
  assert (Hrun : forall p,
            TreatedPatient.addPrescription (DStr s) p
            = if list_contains (DStr s) (TreatedPatient.Prescriptions p)
              then p
              else TreatedPatient.set_Prescriptions
                     (TreatedPatient.Prescriptions p ++ [DStr s]) p).
  { intros p. rewrite addPrescription_run.
    destruct (items (DStr s)) eqn:I; [|reflexivity].
    exfalso. exact (items_of_name s Hs I). }
  split; [apply Hrun|]. split.
  - rewrite (Hrun (TreatedPatient.addPrescription (DStr s) self)).
    rewrite (Hrun self).
    destruct (list_contains (DStr s) (TreatedPatient.Prescriptions self)) eqn:C.
    + rewrite C. reflexivity.
    + simpl.
      replace (list_contains (DStr s)
                 (TreatedPatient.Prescriptions self ++ [DStr s])) with true;
        [reflexivity|].
      symmetry. apply list_contains_In, in_or_app. right; left; auto.
  - intros Hnd. rewrite (Hrun self).
    destruct (list_contains (DStr s) (TreatedPatient.Prescriptions self)) eqn:C;
      [exact Hnd|].
    simpl. apply NoDup_app; [exact Hnd|repeat constructor; intros []|].
    intros y Hy [<-|[]].
    apply list_contains_In in Hy. congruence.
Qed.

(** The drug "a" administered to a patient without drugs. *)
Lemma addPrescription_of_a_drug_name_witness :
  TreatedPatient.addPrescription (DStr "a") Inputs.untreated
  = (if list_contains (DStr "a") (TreatedPatient.Prescriptions Inputs.untreated)
     then Inputs.untreated
     else TreatedPatient.set_Prescriptions
            (TreatedPatient.Prescriptions Inputs.untreated ++ [DStr "a"])
            Inputs.untreated)
  /\ TreatedPatient.addPrescription (DStr "a")
       (TreatedPatient.addPrescription (DStr "a") Inputs.untreated)
     = TreatedPatient.addPrescription (DStr "a") Inputs.untreated
  /\ (NoDup (TreatedPatient.Prescriptions Inputs.untreated) ->
      NoDup (TreatedPatient.Prescriptions
               (TreatedPatient.addPrescription (DStr "a") Inputs.untreated))).
Proof.
  apply (addPrescription_of_a_drug_name "a" Inputs.untreated).
  discriminate.
Defined.

(** C6, as stated, fails: called with the sequence ["a", "b"] on a
    patient without drugs, [addPrescription] leaves the one-element
    list [["a", "b"]], not the two names. *)
Lemma addPrescription_sequence_counterexample :
  TreatedPatient.Prescriptions
    (TreatedPatient.addPrescription (DList ["a"; "b"]%string) Inputs.untreated)
  = [DList ["a"; "b"]%string]
  /\ addPrescription_each (DList ["a"; "b"]%string)
       (TreatedPatient.Prescriptions Inputs.untreated)
     = [DStr "a"; DStr "b"]
  /\ TreatedPatient.Prescriptions
       (TreatedPatient.addPrescription (DList ["a"; "b"]%string)
          Inputs.untreated)
     <> addPrescription_each (DList ["a"; "b"]%string)
          (TreatedPatient.Prescriptions Inputs.untreated).
Proof.
  split; [reflexivity|]. split; [reflexivity|]. discriminate.
Qed.

(** ** Particles: resistance queries and reproduction *)

(** A drug without an entry: the method falls off its end. *)
Lemma isResistantTo_absent self s :
  dict_get (ResistantVirus.resistances self) s = None ->
  ResistantVirus.isResistantTo self (DStr s) = Ok PyNone.
Proof.
  intros H. unfold ResistantVirus.isResistantTo. simpl. rewrite H. reflexivity.
Qed.

(** A drug with an entry: the flag, as a boolean. *)
Lemma isResistantTo_present self s v :
  dict_get (ResistantVirus.resistances self) s = Some v ->
  ResistantVirus.isResistantTo self (DStr s) = Ok (PyBool v).
Proof.
  intros H. unfold ResistantVirus.isResistantTo. simpl. rewrite H. simpl.
  destruct v; reflexivity.
Qed.

(** C5.  [isResistantTo] on a drug absent from the map: for the particle
    with map {"a": True} and the drug "b" the call does not raise, and
    what it returns is [None], which is not the boolean [False]. *)
Theorem isResistantTo_absent_drug :
  ResistantVirus.isResistantTo Inputs.resistant_a (DStr "b") = Ok PyNone
  /\ ResistantVirus.isResistantTo Inputs.resistant_a (DStr "b")
     <> Ok (PyBool false).
Proof.
  split; [reflexivity|discriminate].
Qed.

(** A strictly negative reproduction probability loses against every
    draw of [random.random()]. *)
Lemma SimpleVirus_reproduce_negative {E} self d (w : world E) :
  (SimpleVirus.maxBirthProb self * (1 - d) < 0)%Q ->
  (0 <= rng w (pos w))%Q ->
  fst (SimpleVirus.reproduce self d w) = Raise NoChildException.
Proof.
  intros Hp Hr. unfold SimpleVirus.reproduce, bind, random, ge. simpl.
  destruct (Qle_bool _ _) eqn:L; [|reflexivity].
  apply Qle_bool_iff in L. exfalso.
  apply (Qlt_irrefl 0). eapply Qle_lt_trans; [|exact Hp].
  eapply Qle_trans; eauto.
Qed.

(** C7.  At [popDensity = 1.0] the reproduction probability is 0, and
    the draw 0.0 passes [p >= random.random()]: both [reproduce] methods
    return an offspring. *)
Theorem reproduce_at_full_density :
  fst (SimpleVirus.reproduce Inputs.simple 1
         (@Inputs.start Patient.event (Inputs.always 0)))
  = Ok Inputs.simple_child
  /\ fst (ResistantVirus.reproduce Inputs.resistant_a 1 []
            (@Inputs.start TreatedPatient.event (Inputs.always 0)))
     = Ok (ResistantVirus.mk 1 1 0 [("a"%string, true)] 0).
Proof.
  split; reflexivity.
Qed.

(** C4.  A particle whose map is empty, under the active drug "a":
    [isResistantTo] does not report it resistant to "a" and
    [getResistPop] does not count it, yet [reproduce] returns an
    offspring instead of raising [NoChildException], and
    [TreatedPatient.update] adds that offspring to the live list.  The
    values met (density 0 and 1/2, probability 1 and 1/2, draws 1/2 and
    1/4) are exact in binary floating point. *)
Theorem reproduce_empty_map_under_drug :
  ResistantVirus.resistances Inputs.no_traits = []
  /\ ResistantVirus.isResistantTo Inputs.no_traits (DStr "a") = Ok PyNone
  /\ fst (ResistantVirus.reproduce Inputs.no_traits 0 [DStr "a"]
            (@Inputs.start TreatedPatient.event (Inputs.always (1#2))))
     = Ok (ResistantVirus.mk 1 1 0 [] 0)
  /\ rmap fst
       (TreatedPatient.getResistPop [DStr "a"]
          (TreatedPatient.addPrescription (DStr "a")
             (TreatedPatient.new [Inputs.no_traits] 2 [])))
     = Ok 0
  /\ rmap fst
       (fst (TreatedPatient.update
               (TreatedPatient.addPrescription (DStr "a")
                  (TreatedPatient.new [Inputs.no_traits] 2 []))
               (Inputs.start (Inputs.always (1#4)))))
     = Ok 2
  /\ rmap (fun r => TreatedPatient.newViruses (snd r))
       (fst (TreatedPatient.update
               (TreatedPatient.addPrescription (DStr "a")
                  (TreatedPatient.new [Inputs.no_traits] 2 []))
               (Inputs.start (Inputs.always (1#4)))))
     = Ok [ResistantVirus.mk 1 1 0 [] 0].
Proof.
  split; [reflexivity|]. split; [reflexivity|]. split; [reflexivity|].
  split; [reflexivity|]. split; vm_compute; reflexivity.
Qed.

(** ** What [update] appends, and what it raises *)

(** In [TreatedPatient.update] the particles appended to [newViruses]
    are the offspring the [reproduce] calls returned, and each carries
    an identity that was free before the step. *)
Lemma Treated_update_appends_offspring self w n self' w' :
  TreatedPatient.maxPop self <> 0%Z ->
  TreatedPatient.update self w = (Ok (n, self'), w') ->
  TreatedPatient.newViruses self' = TreatedCalls.offspring (new_calls w w')
  /\ Forall (fun c => next_id w <= ResistantVirus.oid c)
       (TreatedPatient.newViruses self').
Proof.
  intros Hnz Hrun.
  destruct (Treated_update_run self w Hnz)
    as (rp & k & m & r & Hrun' & _ & _ & Hf & _ & Hr).
  rewrite Hrun in Hrun'. inversion Hrun'; subst r w'. clear Hrun'.
  destruct Hr as [_ ->]. rewrite new_calls_app.
  rewrite (proj1 (Treated_update_calls_count _ _ _ _ _)).
  split; [reflexivity|].
  eapply Forall_impl; [|exact Hf]. simpl; intros; lia.
Qed.

(** In [Patient.update] the particles appended to [newViruses] are the
    parents whose [reproduce] call returned; the offspring returned
    carry identities that were free before the step. *)
Lemma Patient_update_appends_parents self w n self' w' :
  Patient.maxPop self <> 0%Z ->
  Patient.update self w = (Ok (n, self'), w') ->
  Patient.newViruses self'
  = PatientCalls.successful_parents (new_calls w w')
  /\ incl (Patient.newViruses self') (Patient.viruses self)
  /\ Forall (fun c => next_id w <= SimpleVirus.oid c)
       (PatientCalls.offspring (new_calls w w')).
Proof.
  intros Hnz Hrun.
  destruct (Patient_update_run self w Hnz)
    as (rp & m & Hrun' & Hd & Hp & _ & Hf).
  rewrite Hrun in Hrun'. inversion Hrun'; subst. clear Hrun'.
  rewrite new_calls_app.
  rewrite (proj1 (Patient_update_calls_count _ _ _ _ _)).
  cbn [Patient.newViruses].
  assert (Hsp : forall evs,
            PatientCalls.successful_parents evs
            = PatientCalls.successful_parents
                (filter (fun e => match e with
                                  | Patient.Reproduce _ _ _ => true
                                  | _ => false
                                  end) evs)).
  { induction evs as [|e rest IH]; simpl; auto.
    destruct e as [| |i d [c|ex]]; simpl; auto. f_equal; exact IH. }
  assert (Hcl : forall r k vs,
            filter (fun e => match e with
                             | Patient.Reproduce _ _ _ => true
                             | _ => false
                             end) (PatientCalls.clear_calls r k vs) = []).
  { intros r k vs; revert k; induction vs; intros; simpl; auto. }
  assert (Hincl : forall evs,
            incl (PatientCalls.successful_parents evs)
                 (PatientCalls.parents evs)).
  { induction evs as [|e rest IH]; simpl; [intros x []|].
    destruct e as [| |i d [c|ex]]; simpl; auto.
    - intros x [->|Hx]; [left; auto|right; apply IH; auto].
    - intros x Hx. right. apply IH; auto. }
  split.
  - rewrite (Hsp (_ ++ _)), filter_app, Hcl. simpl. rewrite <- Hsp.
    reflexivity.
  - split.
    + intros x Hx. apply Hincl in Hx. rewrite Hp in Hx.
      clear - Hx. revert Hx. generalize (pos w).
      induction (Patient.viruses self) as [|v vs IH]; intros k; simpl; [tauto|].
      destruct (ge _ _); simpl.
      * intros H. right. eapply IH; eauto.
      * intros [->|H]; [left; auto|right; eapply IH; eauto].
    + eapply Forall_impl; [|exact Hf]. simpl; intros; lia.
Qed.

(** C1.  [Patient.update] on one particle that survives and reproduces:
    the call of [reproduce] returns a new particle (identity 1), and
    what the step appends to [newViruses] -- and so to the live list --
    is the parent (identity 0); the offspring is not in the list. *)
Theorem Patient_update_appends_parent :
  let self' :=
    Patient.mk [Inputs.simple; Inputs.simple] 10 [Inputs.simple]
      [Inputs.simple] (1#10) in
  let w' :=
    mkWorld (Inputs.always (1#2)) 2 2
      [Patient.DoesClear Inputs.simple false;
       Patient.SetPopDensity (1#10);
       Patient.Reproduce Inputs.simple (1#10) (Ok Inputs.simple_child)] in
  Patient.update Inputs.patient (Inputs.start (Inputs.always (1#2)))
  = (Ok (2, self'), w')
  /\ PatientCalls.offspring (calls w') = [Inputs.simple_child]
  /\ Patient.newViruses self' = [Inputs.simple]
  /\ ~ In Inputs.simple_child (Patient.viruses self').
Proof.
  split; [vm_compute; reflexivity|].
  split; [reflexivity|]. split; [reflexivity|].
  simpl. intros [H|[H|[]]]; discriminate.
Qed.

(** C2.  A particle whose map is {"a": True} under the active drug "b":
    [TreatedPatient.update] raises [KeyError], and so does a direct call
    of [reproduce]; the exception is not [NoChildException] and leaves
    [update]. *)
Theorem update_raises_KeyError :
  fst (TreatedPatient.update Inputs.treated_b
         (Inputs.start (Inputs.always (1#2))))
  = Raise (KeyError "b")
  /\ fst (ResistantVirus.reproduce Inputs.resistant_a (1#10) [DStr "b"]
            (@Inputs.start TreatedPatient.event (Inputs.always (1#2))))
     = Raise (KeyError "b").
Proof.
  split; reflexivity.
Qed.

(** C3.  One trial of [simulationWithDrug] on a template patient whose
    prescription is ["a"] and whose particle is not resistant to "a":
    the first 150 calls of [getResistPop] are made with the template's
    list of administered drugs, which is empty, the last 150 with ["a"];
    the plotted resistant sequence is the whole population (1) before
    the prescription and 0 after. *)
Theorem simulationWithDrug_targets :
  TreatedCalls.resist_targets
    (calls (snd (simulationWithDrug Inputs.susceptible_a Inputs.template 1
                   (Inputs.start (Inputs.always (1#2))))))
  = repeat [] 150 ++ repeat [DStr "a"] 150
  /\ fst (simulationWithDrug Inputs.susceptible_a Inputs.template 1
            (Inputs.start (Inputs.always (1#2))))
     = Ok (repeat 1%Q 300, repeat 1%Q 150 ++ repeat 0%Q 150).
Proof.
  split; vm_compute; reflexivity.
Qed.

(** * Further properties *)

(** ** Dictionaries *)

Section Dictionaries.

Lemma dict_get_absent (d : dict) k :
  ~ In k (keys d) <-> dict_get d k = None.
Proof.
  induction d as [|[k' v'] rest IH]; simpl.
  - split; auto.
  - destruct (String.eqb_spec k k') as [->|Hne].
    + split; [intros H; exfalso; apply H; left; auto|discriminate].
    + rewrite <- IH. split.
      * intros H Hin. apply H. right; auto.
      * intros H [Heq|Hin]; [congruence|auto].
Qed.

Lemma dict_get_app_absent (pre d : dict) k :
  ~ In k (keys pre) -> dict_get (pre ++ d) k = dict_get d k.
Proof.
  induction pre as [|[k' v'] rest IH]; simpl; auto.
  intros H. destruct (String.eqb_spec k k') as [->|Hne].
  - exfalso. apply H. left; auto.
  - apply IH. intros Hin. apply H. right; auto.
Qed.

Lemma dict_set_absent (d : dict) k v :
  ~ In k (keys d) -> dict_set d k v = d ++ [(k, v)].
Proof.
  induction d as [|[k' v'] rest IH]; simpl; auto.
  intros H. destruct (String.eqb_spec k k') as [->|Hne].
  - exfalso. apply H. left; auto.
  - f_equal. apply IH. intros Hin. apply H. right; auto.
Qed.

Lemma keys_mutate_flags r m res : forall k,
  keys (mutate_flags r k m res) = keys res.
Proof.
  induction res as [|[name v] rest IH]; intros k; simpl; auto.
  f_equal. apply IH.
Qed.

Lemma keys_app (a b : dict) : keys (a ++ b) = keys a ++ keys b.
Proof. unfold keys. apply map_app. Qed.

End Dictionaries.

(** ** ResistantVirus.reproduce in full *)

Section ReproduceInFull.
Import ResistantVirus TreatedCalls.

(** The loop over the keys builds the map [mutate_flags] describes. *)
Lemma mutate_loop_exact {E} self : forall suf pre acc (w : world E),
  resistances self = pre ++ suf ->
  NoDup (keys (resistances self)) ->
  keys acc = keys pre ->
  for_each (keys suf) (mutate_step self) acc w =
  (Ok (acc ++ mutate_flags (rng w) (pos w) (mutProb self) suf),
   mkWorld (rng w) (pos w + length suf) (next_id w) (calls w)).
Proof.
  induction suf as [|[name v] rest IH]; intros pre acc w Hres Hnd Hk; simpl.
  - unfold ret. rewrite app_nil_r, Nat.add_0_r, world_eta. reflexivity.
  - assert (Hnot : ~ In name (keys pre)).
    { rewrite Hres, keys_app in Hnd. simpl in Hnd.
      apply NoDup_remove_2 in Hnd. intros Hin. apply Hnd.
      apply in_or_app. left; auto. }
    assert (Hget : dict_get (resistances self) name = Some v).
    { rewrite Hres, dict_get_app_absent by exact Hnot.
      simpl. rewrite String.eqb_refl. reflexivity. }
    assert (Hset : forall x, dict_set acc name x = acc ++ [(name, x)]).
    { intros x. apply dict_set_absent. rewrite Hk. exact Hnot. }
    unfold bind at 1, mutate_step at 1, bind at 1, random. simpl.
    assert (Hnext : forall x,
              for_each (keys rest) (mutate_step self) (acc ++ [(name, x)])
                (mkWorld (rng w) (S (pos w)) (next_id w) (calls w))
              = (Ok ((acc ++ [(name, x)])
                     ++ mutate_flags (rng w) (S (pos w)) (mutProb self) rest),
                 mkWorld (rng w) (S (pos w) + length rest) (next_id w)
                   (calls w))).
    { intros x. apply (IH (pre ++ [(name, v)])); auto.
      - rewrite <- app_assoc. exact Hres.
      - rewrite !keys_app, Hk. reflexivity. }
    destruct (ge _ _); unfold bind, lift, ret; simpl; rewrite Hget, Hset,
      Hnext, <- app_assoc; simpl; do 3 f_equal; lia.
Qed.

(** What the loop over the active drugs returns when it returns. *)
Lemma resist_loop_result self active : forall acc b,
  rfor_each active (resist_step self) acc = Ok b ->
  configured active self = true
  /\ b = (acc && eligible active self
          || acc && (length (resistances self) =? 0)).
Proof.
  unfold configured, eligible.
  destruct (length (resistances self) =? 0) eqn:E; simpl.
  - intros acc b H. split; auto.
    assert (Hempty : resistances self = [])
      by (apply Nat.eqb_eq in E; destruct (resistances self);
          [reflexivity|discriminate]).
    rewrite (resist_loop_empty self active acc Hempty) in H.
    inversion H. destruct b; reflexivity.
  - induction active as [|d rest IH]; intros acc b; simpl.
    + intros H; inversion H. split; auto. destruct b; reflexivity.
    + unfold resist_step at 1, getResistances. rewrite E. simpl.
      destruct d as [s|l]; simpl; [|discriminate].
      destruct (dict_get (resistances self) s) as [v|]; simpl;
        [|discriminate].
      destruct v; simpl.
      * apply IH.
      * intros H. apply IH in H as [Hc ->]. split; auto.
        rewrite !andb_false_r. reflexivity.
Qed.

Lemma resist_loop_eligible self active :
  eligible active self = true ->
  rfor_each active (resist_step self) true = Ok true.
Proof.
  intros He.
  assert (Hc : configured active self = true).
  { unfold configured, eligible in *.
    destruct (length (resistances self) =? 0); simpl in *; auto.
    rewrite forallb_forall in *. intros d Hd. specialize (He d Hd).
    destruct d as [s|l]; simpl in *; [|discriminate].
    destruct (dict_get (resistances self) s); auto; discriminate. }
  destruct (resist_loop_configured self active true Hc) as [b Hb].
  rewrite Hb. destruct (resist_loop_result self active true b Hb) as [_ ->].
  rewrite He. reflexivity.
Qed.

Lemma resist_loop_ineligible self active :
  configured active self = true ->
  eligible active self = false ->
  rfor_each active (resist_step self) true = Ok false.
Proof.
  intros Hc He.
  destruct (resist_loop_configured self active true Hc) as [b Hb].
  rewrite Hb. destruct (resist_loop_result self active true b Hb) as [_ ->].
  rewrite He. simpl. unfold eligible in He.
  destruct (length (resistances self) =? 0); [discriminate|reflexivity].
Qed.

(** [reproduce] on a particle that passes the gate. *)
Lemma reproduce_eligible_run {E} self d active (w : world E) :
  NoDup (keys (resistances self)) ->
  eligible active self = true ->
  reproduce self d active w =
  if ge (maxBirthProb self * (1 - d))%Q
        (rng w (pos w + length (resistances self)))
  then (Ok (mk (next_id w) (maxBirthProb self) (clearProb self)
              (mutate_flags (rng w) (pos w) (mutProb self) (resistances self))
              (mutProb self)),
        mkWorld (rng w) (S (pos w + length (resistances self)))
          (S (next_id w)) (calls w))
  else (Raise NoChildException,
        mkWorld (rng w) (S (pos w + length (resistances self)))
          (next_id w) (calls w)).
Proof.
  intros Hnd He. unfold reproduce. unfold bind at 1, lift.
  rewrite (resist_loop_eligible self active He).
  unfold bind at 1.
  assert (Hm : (if negb (length (resistances self) =? 0)
                then for_each (keys (resistances self)) (mutate_step self)
                       ([] : dict)
                else ret ([] : dict)) w
               = (Ok (mutate_flags (rng w) (pos w) (mutProb self)
                        (resistances self)),
                  mkWorld (rng w) (pos w + length (resistances self))
                    (next_id w) (calls w))).
  { destruct (length (resistances self) =? 0) eqn:L; cbn [negb].
    - apply Nat.eqb_eq in L. rewrite L.
      destruct (resistances self); [|discriminate].
      simpl. unfold ret. rewrite Nat.add_0_r, world_eta. reflexivity.
    - rewrite (mutate_loop_exact self (resistances self) [] [] w);
        auto. }
  match goal with |- context [(if ?c then ?a else ?b) w] =>
    change ((if c then a else b) w)
      with ((if negb (length (resistances self) =? 0)
             then for_each (keys (resistances self)) (mutate_step self)
                    ([] : dict)
             else ret ([] : dict)) w)
  end.
  rewrite Hm. unfold bind, random, new, fresh_id, ret, raise. simpl.
  destruct (ge _ _); reflexivity.
Qed.

End ReproduceInFull.

(** ** getResistPop *)

Section ResistPop.
Import TreatedPatient.

Lemma isResistantTo_name self s :
  exists v, ResistantVirus.isResistantTo self (DStr s) = Ok v
            /\ truth v = flag_true (ResistantVirus.resistances self) (DStr s).
Proof.
  unfold ResistantVirus.isResistantTo. simpl.
  destruct (dict_get (ResistantVirus.resistances self) s) as [[|]|]; simpl;
    eexists; split; reflexivity.
Qed.

Lemma resists_loop_names i drugs : forall acc,
  forallb is_name drugs = true ->
  rfor_each drugs (resists_step i) acc
  = Ok (acc && forallb (flag_true (ResistantVirus.resistances i)) drugs).
Proof.
  induction drugs as [|d rest IH]; intros acc H; simpl.
  - rewrite andb_true_r. reflexivity.
  - simpl in H. apply andb_prop in H as [Hd Hrest].
    destruct d as [s|l]; [|discriminate].
    cbn [rfor_each forallb]. unfold resists_step at 1.
    destruct (isResistantTo_name i s) as (v & -> & Hv). cbn [rbind].
    rewrite Hv.
    destruct (flag_true _ (DStr s)); cbn [negb andb rbind];
      rewrite IH by exact Hrest.
    + reflexivity.
    + rewrite andb_false_r. reflexivity.
Qed.

Lemma resists_loop_unhashable i drugs : forall acc,
  forallb is_name drugs = false ->
  rfor_each drugs (resists_step i) acc = Raise TypeError.
Proof.
  induction drugs as [|d rest IH]; intros acc H; simpl in *; [discriminate|].
  destruct d as [s|l]; simpl in H.
  - unfold resists_step at 1.
    destruct (isResistantTo_name i s) as (v & -> & _). simpl.
    destruct (negb (truth v)); apply IH, H.
  - reflexivity.
Qed.

Lemma count_loop_names drugs vs : forall self,
  forallb is_name drugs = true ->
  rfor_each vs (count_step drugs) self
  = Ok (set_resistantViruses
          (resistantViruses self + count_resistant drugs vs) self).
Proof.
  unfold count_resistant.
  induction vs as [|i rest IH]; intros self H; simpl.
  - rewrite Nat.add_0_r. destruct self; reflexivity.
  - unfold count_step at 1. rewrite (resists_loop_names i drugs true H).
    cbn [andb rbind].
    destruct (forallb (flag_true (ResistantVirus.resistances i)) drugs);
      cbn [rbind]; rewrite IH by exact H.
    + f_equal. unfold set_resistantViruses; simpl. f_equal. lia.
    + reflexivity.
Qed.

(** X1.  [getResistPop] in full: on a list of drug names it returns the
    number of live particles flagged [True] for every name and assigns
    only [resistantViruses]; a list among the drugs raises [TypeError]
    as soon as there is a particle to test. *)
Theorem getResistPop_counts :
  forall (drugResist : list drugval) (self : TreatedPatient.t),
    getResistPop drugResist self
    = if forallb is_name drugResist
         || match viruses self with [] => true | _ => false end
      then Ok (count_resistant drugResist (viruses self),
               set_resistantViruses
                 (count_resistant drugResist (viruses self)) self)
      else Raise TypeError.
Proof.
  intros drugs self. unfold getResistPop.
  destruct (forallb is_name drugs) eqn:N; simpl.
  - change (viruses (set_resistantViruses 0 self)) with (viruses self).
    rewrite count_loop_names by exact N. reflexivity.
  - change (viruses (set_resistantViruses 0 self)) with (viruses self).
    destruct (viruses self) as [|i rest]; simpl; [reflexivity|].
    unfold count_step at 1. rewrite resists_loop_unhashable by exact N.
    reflexivity.
Qed.

(** X2.  With no drug to test, [getResistPop] counts every live particle. *)
Theorem getResistPop_no_drug :
  forall self : TreatedPatient.t,
    rmap fst (getResistPop [] self) = Ok (getTotalPop self).
Proof.
  intros self. unfold getResistPop.
  change (viruses (set_resistantViruses 0 self)) with (viruses self).
  rewrite count_loop_names by reflexivity. simpl.
  unfold count_resistant, getTotalPop. simpl.
  f_equal. induction (viruses self); simpl; auto.
Qed.

(** X3.  Testing more drugs never counts more particles, and no count
    exceeds the population. *)
Theorem getResistPop_antitone :
  forall (drugs more : list drugval) (self : TreatedPatient.t),
    forallb is_name (drugs ++ more) = true ->
    exists n m,
      rmap fst (getResistPop drugs self) = Ok n
      /\ rmap fst (getResistPop (drugs ++ more) self) = Ok m
      /\ m <= n <= getTotalPop self.
Proof.
  intros drugs more self H.
  assert (Hd : forallb is_name drugs = true).
  { rewrite forallb_app in H. apply andb_prop in H. tauto. }
  unfold getResistPop.
  change (viruses (set_resistantViruses 0 self)) with (viruses self).
  rewrite !count_loop_names by assumption. simpl.
  eexists _, _. split; [reflexivity|]. split; [reflexivity|].
  unfold count_resistant, getTotalPop.
  induction (viruses self) as [|i rest IH]; simpl; [lia|].
  rewrite forallb_app.
  destruct (forallb (flag_true (ResistantVirus.resistances i)) drugs);
    simpl; [|lia].
  destruct (forallb (flag_true (ResistantVirus.resistances i)) more);
    simpl; lia.
Qed.

(** Two names against a population of one particle. *)
Lemma getResistPop_antitone_witness :
  exists n m,
    rmap fst (getResistPop [DStr "a"] Inputs.untreated) = Ok n
    /\ rmap fst (getResistPop ([DStr "a"] ++ [DStr "b"]) Inputs.untreated)
       = Ok m
    /\ m <= n <= getTotalPop Inputs.untreated.
Proof.
  apply (getResistPop_antitone [DStr "a"] [DStr "b"] Inputs.untreated).
  reflexivity.
Defined.

End ResistPop.

(** ** ResistantVirus.reproduce: gate, offspring, mutation *)

Section ReproduceProperties.
Import ResistantVirus TreatedCalls.

Lemma mutate_flags_none r m res : forall k,
  (m == 0)%Q -> (forall j, (r j <= 1)%Q) ->
  mutate_flags r k m res = res.
Proof.
  intros k Hm Hr. revert k.
  induction res as [|[name v] rest IH]; intros k; simpl; auto.
  rewrite IH. unfold ge.
  replace (Qle_bool (r k) (1 - m)) with true; [reflexivity|].
  symmetry. apply Qle_bool_iff. rewrite Hm.
  apply Qle_trans with 1%Q; [apply Hr|]. discriminate.
Qed.

Lemma mutate_flags_all r m res : forall k,
  (m == 1)%Q -> (forall j, (0 < r j)%Q) ->
  mutate_flags r k m res = flip_flags res.
Proof.
  intros k Hm Hr. revert k.
  induction res as [|[name v] rest IH]; intros k; simpl; auto.
  rewrite IH. unfold ge.
  replace (Qle_bool (r k) (1 - m)) with false; [reflexivity|].
  symmetry. destruct (Qle_bool (r k) (1 - m)) eqn:L; auto.
  apply Qle_bool_iff in L. rewrite Hm in L. exfalso.
  apply (Qlt_irrefl 0). eapply Qlt_le_trans; [apply (Hr k)|].
  eapply Qle_trans; [exact L|]. discriminate.
Qed.

Lemma reproduce_returns_eligible {E} self d active (w w' : world E) c :
  reproduce self d active w = (Ok c, w') -> eligible active self = true.
Proof.
  unfold reproduce. unfold bind at 1, lift.
  destruct (rfor_each active (resist_step self) true) as [b|e] eqn:R;
    [|discriminate].
  destruct (resist_loop_result self active true b R) as [_ Hb].
  destruct b; [|unfold raise; discriminate].
  intros _. simpl in Hb. unfold eligible in *.
  destruct (length (resistances self) =? 0); simpl in *; auto.
  rewrite orb_false_r in Hb. auto.
Qed.

(** X4.  A particle that fails the gate -- its map is not empty, every
    active drug has an entry and one of them is flagged [False] --
    raises [NoChildException] without drawing or allocating. *)
Theorem reproduce_ineligible_no_draw :
  forall (self : ResistantVirus.t) (d : Q) (activeDrugs : list drugval)
         (w : world TreatedPatient.event),
    configured activeDrugs self = true ->
    eligible activeDrugs self = false ->
    reproduce self d activeDrugs w = (Raise NoChildException, w).
Proof.
  intros self d active w Hc He. unfold reproduce, bind, lift.
  rewrite (resist_loop_ineligible self active Hc He). reflexivity.
Qed.

(** The particle with map {"a": False} under the active drug "a". *)
Lemma reproduce_ineligible_no_draw_witness :
  reproduce Inputs.susceptible_a 0 [DStr "a"]
    (@Inputs.start TreatedPatient.event (Inputs.always (1#2)))
  = (Raise NoChildException, Inputs.start (Inputs.always (1#2))).
Proof.
  apply (reproduce_ineligible_no_draw Inputs.susceptible_a 0 [DStr "a"]);
    reflexivity.
Defined.

(** X5.  Whenever [reproduce] returns an offspring: the parent passed
    the gate; the offspring has a new identity, the parent's
    [maxBirthProb], [clearProb] and [mutProb], and a map with the
    parent's keys in the parent's order; the call took one draw per key
    and one more for the birth. *)
Theorem reproduce_offspring :
  forall (self : ResistantVirus.t) (d : Q) (activeDrugs : list drugval)
         (w w' : world TreatedPatient.event) (c : ResistantVirus.t),
    NoDup (keys (resistances self)) ->
    reproduce self d activeDrugs w = (Ok c, w') ->
    eligible activeDrugs self = true
    /\ oid c = next_id w
    /\ next_id w' = S (next_id w)
    /\ maxBirthProb c = maxBirthProb self
    /\ clearProb c = clearProb self
    /\ mutProb c = mutProb self
    /\ keys (resistances c) = keys (resistances self)
    /\ pos w' = pos w + length (resistances self) + 1.
Proof.
  intros self d active w w' c Hnd Hrun.
  assert (He : eligible active self = true)
    by (eapply reproduce_returns_eligible; eauto).
  split; [exact He|].
  rewrite (reproduce_eligible_run self d active w Hnd He) in Hrun.
  destruct (ge _ _); [|discriminate].
  inversion Hrun; subst; simpl.
  repeat split; auto.
  - apply keys_mutate_flags.
  - lia.
Qed.

(** The particle with maps {"a": True, "b": False} under the active
    drug "a", draws 1/2. *)
Lemma reproduce_offspring_witness :
  eligible [DStr "a"]
    (mk 0 1 0 [("a"%string, true); ("b"%string, false)] 0) = true
  /\ oid (mk 1 1 0 [("a"%string, true); ("b"%string, false)] 0) = 1
  /\ next_id (mkWorld (Inputs.always (1#2)) 3 2
                (@nil TreatedPatient.event)) = 2
  /\ maxBirthProb (mk 1 1 0 [("a"%string, true); ("b"%string, false)] 0)
     = 1%Q
  /\ clearProb (mk 1 1 0 [("a"%string, true); ("b"%string, false)] 0)
     = 0%Q
  /\ mutProb (mk 1 1 0 [("a"%string, true); ("b"%string, false)] 0)
     = 0%Q
  /\ keys (resistances
             (mk 1 1 0 [("a"%string, true); ("b"%string, false)] 0))
     = ["a"%string; "b"%string]
  /\ pos (mkWorld (Inputs.always (1#2)) 3 2 (@nil TreatedPatient.event))
     = 0 + 2 + 1.
Proof.
  apply (reproduce_offspring
           (mk 0 1 0 [("a"%string, true); ("b"%string, false)] 0)
           0 [DStr "a"] (Inputs.start (Inputs.always (1#2)))).
  - simpl. repeat constructor; simpl; intuition discriminate.
  - reflexivity.
Defined.

(** X6.  With [mutProb = 0] and draws in [0, 1] an offspring inherits the
    parent's map unchanged. *)
Theorem reproduce_without_mutation :
  forall (self : ResistantVirus.t) (d : Q) (activeDrugs : list drugval)
         (w w' : world TreatedPatient.event) (c : ResistantVirus.t),
    NoDup (keys (resistances self)) ->
    (mutProb self == 0)%Q ->
    (forall k, (rng w k <= 1)%Q) ->
    reproduce self d activeDrugs w = (Ok c, w') ->
    resistances c = resistances self.
Proof.
  intros self d active w w' c Hnd Hm Hr Hrun.
  assert (He : eligible active self = true)
    by (eapply reproduce_returns_eligible; eauto).
  rewrite (reproduce_eligible_run self d active w Hnd He) in Hrun.
  destruct (ge _ _); [|discriminate].
  inversion Hrun; subst; simpl.
  apply mutate_flags_none; auto.
Qed.

Lemma reproduce_without_mutation_witness :
  resistances (mk 1 1 0 [("a"%string, true)] 0)
  = resistances Inputs.resistant_a.
Proof.
  apply (reproduce_without_mutation Inputs.resistant_a 0 []
           (Inputs.start (Inputs.always (1#2)))
           (mkWorld (Inputs.always (1#2)) 2 2 [])).
  - simpl. repeat constructor. simpl. tauto.
  - reflexivity.
  - intros k. discriminate.
  - reflexivity.
Defined.

(** X7.  With [mutProb = 1] and strictly positive draws an offspring gets
    every flag of the parent's map flipped. *)
Theorem reproduce_with_certain_mutation :
  forall (self : ResistantVirus.t) (d : Q) (activeDrugs : list drugval)
         (w w' : world TreatedPatient.event) (c : ResistantVirus.t),
    NoDup (keys (resistances self)) ->
    (mutProb self == 1)%Q ->
    (forall k, (0 < rng w k)%Q) ->
    reproduce self d activeDrugs w = (Ok c, w') ->
    resistances c = flip_flags (resistances self).
Proof.
  intros self d active w w' c Hnd Hm Hr Hrun.
  assert (He : eligible active self = true)
    by (eapply reproduce_returns_eligible; eauto).
  rewrite (reproduce_eligible_run self d active w Hnd He) in Hrun.
  destruct (ge _ _); [|discriminate].
  inversion Hrun; subst; simpl.
  apply mutate_flags_all; auto.
Qed.

Lemma reproduce_with_certain_mutation_witness :
  resistances (mk 1 1 0 [("a"%string, false)] 1)
  = flip_flags (resistances (mk 0 1 0 [("a"%string, true)] 1)).
Proof.
  apply (reproduce_with_certain_mutation (mk 0 1 0 [("a"%string, true)] 1)
           0 [] (Inputs.start (Inputs.always (1#2)))
           (mkWorld (Inputs.always (1#2)) 2 2 [])).
  - simpl. repeat constructor. simpl. tauto.
  - reflexivity.
  - intros k. reflexivity.
  - reflexivity.
Defined.

End ReproduceProperties.

(** ** addPrescription for any argument, and in sequence *)

Section PrescriptionLists.
Import TreatedPatient.

(** X8.  For every argument -- a name, the empty string, a list -- a call
    either leaves the patient as it is or appends the argument itself
    as the last administered drug; it changes no other attribute and
    never removes or reorders a drug; an argument without items (the
    empty string, the empty list) and an argument already administered
    leave the patient unchanged; a second call with the same argument
    changes nothing. *)
Theorem addPrescription_any_argument :
  forall (newDrugs : drugval) (self : TreatedPatient.t),
    (addPrescription newDrugs self = self
     \/ addPrescription newDrugs self
        = set_Prescriptions (Prescriptions self ++ [newDrugs]) self)
    /\ (items newDrugs = [] -> addPrescription newDrugs self = self)
    /\ (In newDrugs (Prescriptions self) ->
        addPrescription newDrugs self = self)
    /\ addPrescription newDrugs (addPrescription newDrugs self)
       = addPrescription newDrugs self.
Proof.
  intros newDrugs self.
  assert (Hrun := addPrescription_run newDrugs).
  split; [|split; [|split]].
  - rewrite Hrun. destruct (_ || _); auto.
  - intros H. rewrite Hrun, H. reflexivity.
  - intros H. apply list_contains_In in H. rewrite Hrun, H.
    rewrite orb_true_r. reflexivity.
  - rewrite (Hrun (addPrescription newDrugs self)), (Hrun self).
    destruct (items newDrugs) as [|d rest]; [reflexivity|].
    cbn [orb].
    destruct (list_contains newDrugs (Prescriptions self)) eqn:C.
    + rewrite C. reflexivity.
    + cbn [Prescriptions set_Prescriptions].
      replace (list_contains newDrugs (Prescriptions self ++ [newDrugs]))
        with true; [reflexivity|].
      symmetry. apply list_contains_In, in_or_app. right; left; auto.
Qed.

Lemma first_seen_loop l : forall acc,
  NoDup acc ->
  NoDup (fold_left (fun acc d => if list_contains d acc then acc
                                 else acc ++ [d]) l acc)
  /\ (forall d, In d (fold_left (fun acc d => if list_contains d acc then acc
                                              else acc ++ [d]) l acc)
                <-> In d acc \/ In d l).
Proof.
  induction l as [|x rest IH]; intros acc Hnd; simpl.
  - split; auto. intros d. tauto.
  - destruct (list_contains x acc) eqn:C.
    + destruct (IH acc Hnd) as [H1 H2]. split; auto.
      intros d. rewrite H2. apply list_contains_In in C.
      split; [tauto|]. intros [H|[<-|H]]; auto.
    + assert (Hnd' : NoDup (acc ++ [x])).
      { apply NoDup_app; auto.
        - repeat constructor. intros [].
        - intros y Hy [<-|[]]. apply list_contains_In in Hy. congruence. }
      destruct (IH (acc ++ [x]) Hnd') as [H1 H2]. split; auto.
      intros d. rewrite H2, in_app_iff. simpl. tauto.
Qed.

Lemma addPrescription_fold l : forall self,
  Forall (fun d => items d <> []) l ->
  Prescriptions (fold_left (fun p d => addPrescription d p) l self)
  = fold_left (fun acc d => if list_contains d acc then acc else acc ++ [d])
      l (Prescriptions self).
Proof.
  induction l as [|x rest IH]; intros self H; simpl; auto.
  inversion H as [|? ? Hx Hrest]; subst.
  rewrite IH by exact Hrest. f_equal.
  rewrite addPrescription_run.
  destruct (items x); [congruence|]. cbn [orb].
  destruct (list_contains x (Prescriptions self)); reflexivity.
Qed.

(** X9.  Administering the drugs of a prescription one after the other, as
    the treated driver does, to a patient without drugs: the list of
    administered drugs is the prescription in order of first
    appearance; it has no duplicates and holds exactly the drugs of the
    prescription. *)
Theorem addPrescription_in_sequence :
  forall (prescription : list drugval) (self : TreatedPatient.t),
    Prescriptions self = [] ->
    Forall (fun d => items d <> []) prescription ->
    let self' :=
      fold_left (fun p d => addPrescription d p) prescription self in
    Prescriptions self' = first_seen prescription
    /\ NoDup (Prescriptions self')
    /\ (forall d, In d (Prescriptions self') <-> In d prescription).
Proof.
  intros l self Hempty Hl. cbn zeta.
  rewrite addPrescription_fold by exact Hl. rewrite Hempty.
  fold (first_seen l). unfold first_seen.
  destruct (first_seen_loop l [] (NoDup_nil _)) as [H1 H2].
  split; [reflexivity|]. split; [exact H1|].
  intros d. rewrite H2. simpl. tauto.
Qed.

(** The prescription ["a", "b", "a"]. *)
Lemma addPrescription_in_sequence_witness :
  let self' :=
    fold_left (fun p d => addPrescription d p)
      [DStr "a"; DStr "b"; DStr "a"] Inputs.untreated in
  Prescriptions self' = first_seen [DStr "a"; DStr "b"; DStr "a"]
  /\ NoDup (Prescriptions self')
  /\ (forall d, In d (Prescriptions self')
                <-> In d [DStr "a"; DStr "b"; DStr "a"]).
Proof.
  apply (addPrescription_in_sequence [DStr "a"; DStr "b"; DStr "a"]
           Inputs.untreated).
  - reflexivity.
  - repeat constructor; discriminate.
Defined.

End PrescriptionLists.

(** ** Patient.update in full *)

Section PatientInFull.
Import Patient PatientCalls.

Lemma Patient_reproduce_loop_exact vs : forall self w,
  let rp := Patient_reproduce_calls (rng w) (pos w) (next_id w)
              (popDensity self) vs in
  for_each vs reproduce_step self w =
  (Ok (set_newViruses (newViruses self ++ successful_parents rp) self),
   mkWorld (rng w) (pos w + length vs)
     (next_id w + length (offspring rp)) (calls w ++ rp)).
Proof.
  induction vs as [|i rest IH]; intros self w; simpl.
  - unfold ret. rewrite !app_nil_r, !Nat.add_0_r, world_eta.
    destruct self; reflexivity.
  - unfold bind at 1.
    unfold reproduce_step at 1, try_except_NoChild, bind, call_reproduce.
    rewrite SimpleVirus_reproduce_run.
    destruct (ge _ _); cbn [SimpleVirus.truthy ret].
    + unfold ret. rewrite IH. cbn [rng pos next_id calls popDensity
        set_newViruses newViruses]. simpl.
      rewrite <- !app_assoc. simpl.
      f_equal. f_equal; lia.
    + unfold ret. rewrite IH. cbn [rng pos next_id calls]. simpl.
      rewrite <- !app_assoc. simpl.
      f_equal. f_equal; lia.
Qed.

(** [Patient.update] as a function of the draws. *)
Lemma Patient_update_exact self w :
  maxPop self <> 0%Z ->
  let cl := clear_calls (rng w) (pos w) (viruses self) in
  let sv := survivors_of cl in
  let d := (inject_Z (Z.of_nat (length sv)) / inject_Z (maxPop self))%Q in
  let rp := Patient_reproduce_calls (rng w) (pos w + length (viruses self))
              (next_id w) d sv in
  update self w =
  (Ok (length sv + length (successful_parents rp),
       mk (sv ++ successful_parents rp) (maxPop self) sv
          (successful_parents rp) d),
   mkWorld (rng w) (pos w + length (viruses self) + length sv)
     (next_id w + length (offspring rp))
     (calls w ++ cl ++ SetPopDensity d :: rp)).
Proof.
  intros Hmax cl sv d rp. unfold update. unfold bind at 1.
  rewrite Patient_clear_loop. simpl. fold cl. fold sv.
  unfold bind at 1, lift, true_div. simpl.
  destruct (Z.eqb_spec (maxPop self) 0) as [E|_]; [contradiction|].
  fold d. unfold bind at 1, record. simpl.
  unfold bind at 1. rewrite Patient_reproduce_loop_exact. simpl.
  fold rp. unfold ret. simpl.
  rewrite length_app, <- !app_assoc. reflexivity.
Qed.

Lemma Patient_reproduce_calls_lengths r d vs : forall k nid,
  length (successful_parents (Patient_reproduce_calls r k nid d vs))
  = length (offspring (Patient_reproduce_calls r k nid d vs))
  /\ length (successful_parents (Patient_reproduce_calls r k nid d vs))
     <= length vs.
Proof.
  induction vs as [|i rest IH]; intros k nid; simpl; auto.
  destruct (ge _ _); simpl.
  - destruct (IH (S k) (S nid)). split; lia.
  - destruct (IH (S k) nid). split; lia.
Qed.

Lemma Patient_survivors_length r vs : forall k,
  length (survivors_of (clear_calls r k vs)) <= length vs.
Proof.
  induction vs as [|i rest IH]; intros k; simpl; auto.
  destruct (ge _ _); simpl; specialize (IH (S k)); lia.
Qed.

End PatientInFull.

(** ** Patient.update: growth, draws, extinction *)

Section PatientSteps.
Import Patient PatientCalls.

(** X10.  One step of a patient with a non-zero [maxPop] always returns; the
    new total is at least the number of survivors and at most twice
    that number, hence at most twice the old total; [maxPop] is left
    as it was; the step takes one draw per particle for the clearance
    and one per survivor for the reproduction, and allocates one
    identity per offspring returned. *)
Theorem Patient_update_growth_bound :
  forall (self : Patient.t) (w : world Patient.event),
    maxPop self <> 0%Z ->
    exists n self' w',
      update self w = (Ok (n, self'), w')
      /\ length (survivorViruses self') <= n <= 2 * length (survivorViruses self')
      /\ n <= 2 * getTotalPop self
      /\ maxPop self' = maxPop self
      /\ rng w' = rng w
      /\ pos w' = pos w + getTotalPop self + length (survivorViruses self')
      /\ next_id w' = next_id w + length (offspring (new_calls w w')).
Proof.
  intros self w Hnz. rewrite (Patient_update_exact self w Hnz).
  eexists _, _, _. split; [reflexivity|].
  rewrite new_calls_app.
  rewrite (proj1 (Patient_update_calls_count _ _ _ _ _)).
  cbn [survivorViruses maxPop rng pos next_id].
  match goal with |- context [Patient_reproduce_calls ?r ?k ?nid ?d ?vs] =>
    destruct (Patient_reproduce_calls_lengths r d vs k nid) as [H1 H2]
  end.
  assert (H3 := Patient_survivors_length (rng w) (viruses self) (pos w)).
  unfold getTotalPop. repeat split; auto; try lia.
Qed.

(** One particle, [maxPop = 10]. *)
Lemma Patient_update_growth_bound_witness :
  exists n self' w',
    update Inputs.patient (Inputs.start (Inputs.always (1#2)))
    = (Ok (n, self'), w')
    /\ length (survivorViruses self') <= n
       <= 2 * length (survivorViruses self')
    /\ n <= 2 * getTotalPop Inputs.patient
    /\ maxPop self' = maxPop Inputs.patient
    /\ rng w' = rng (@Inputs.start Patient.event (Inputs.always (1#2)))
    /\ pos w' = pos (@Inputs.start Patient.event (Inputs.always (1#2)))
                + getTotalPop Inputs.patient + length (survivorViruses self')
    /\ next_id w'
       = next_id (@Inputs.start Patient.event (Inputs.always (1#2)))
         + length (offspring
                     (new_calls (Inputs.start (Inputs.always (1#2))) w')).
Proof.
  apply (Patient_update_growth_bound Inputs.patient
           (Inputs.start (Inputs.always (1#2)))).
  simpl. lia.
Defined.

Lemma Patient_clear_all r vs : forall k,
  Forall (fun i => (1 <= SimpleVirus.clearProb i)%Q) vs ->
  (forall j, (r j <= 1)%Q) ->
  survivors_of (clear_calls r k vs) = [].
Proof.
  intros k Hvs Hr. revert k.
  induction Hvs as [|i rest Hi _ IH]; intros k; simpl; auto.
  unfold ge. replace (Qle_bool (r k) (SimpleVirus.clearProb i)) with true.
  - simpl. apply IH.
  - symmetry. apply Qle_bool_iff. eapply Qle_trans; [apply Hr|exact Hi].
Qed.

(** X11.  When every live particle has [clearProb >= 1] and the draws are in
    [0, 1], one step clears the whole population: it returns 0 and
    leaves an empty live list. *)
Theorem Patient_update_extinction :
  forall (self : Patient.t) (w : world Patient.event),
    maxPop self <> 0%Z ->
    Forall (fun i => (1 <= SimpleVirus.clearProb i)%Q) (viruses self) ->
    (forall k, (rng w k <= 1)%Q) ->
    exists self' w',
      update self w = (Ok (0, self'), w') /\ viruses self' = [].
Proof.
  intros self w Hnz Hvs Hr. rewrite (Patient_update_exact self w Hnz).
  rewrite (Patient_clear_all (rng w) (viruses self) (pos w) Hvs Hr).
  simpl. eexists _, _. split; reflexivity.
Qed.

(** One particle with [clearProb = 1]. *)
Lemma Patient_update_extinction_witness :
  exists self' w',
    update (Patient.new [SimpleVirus.mk 0 1 1] 10)
      (Inputs.start (Inputs.always (1#2)))
    = (Ok (0, self'), w') /\ viruses self' = [].
Proof.
  apply (Patient_update_extinction (Patient.new [SimpleVirus.mk 0 1 1] 10)
           (Inputs.start (Inputs.always (1#2)))).
  - simpl. lia.
  - repeat constructor. discriminate.
  - intros k. discriminate.
Defined.

Lemma Patient_no_birth r d vs : forall k nid,
  Forall (fun i => (SimpleVirus.maxBirthProb i == 0)%Q) vs ->
  (forall j, (0 < r j)%Q) ->
  successful_parents (Patient_reproduce_calls r k nid d vs) = [].
Proof.
  intros k nid Hvs Hr. revert k nid.
  induction Hvs as [|i rest Hi _ IH]; intros k nid; simpl; auto.
  unfold ge.
  replace (Qle_bool (r k) (SimpleVirus.maxBirthProb i * (1 - d))) with false.
  - simpl. apply IH.
  - symmetry.
    destruct (Qle_bool (r k) (SimpleVirus.maxBirthProb i * (1 - d))) eqn:L;
      auto.
    apply Qle_bool_iff in L. rewrite Hi, Qmult_0_l in L. exfalso.
    apply (Qlt_irrefl 0). eapply Qlt_le_trans; [apply (Hr k)|exact L].
Qed.

Lemma Patient_survivors_Forall (P : SimpleVirus.t -> Prop) r vs : forall k,
  Forall P vs -> Forall P (survivors_of (clear_calls r k vs)).
Proof.
  intros k H. revert k.
  induction H as [|i rest Hi _ IH]; intros k; simpl; auto.
  destruct (ge _ _); simpl; auto.
Qed.

Lemma Patient_updates_step n self w m s1 w1 :
  update self w = (Ok (m, s1), w1) ->
  Patient_updates (S n) self w =
  match Patient_updates n s1 w1 with
  | (Ok (t, s2), w2) => (Ok (m :: t, s2), w2)
  | (Raise e, w2) => (Raise e, w2)
  end.
Proof.
  intros H. simpl. unfold bind at 1. rewrite H. cbn [snd fst].
  unfold bind. destruct (Patient_updates n s1 w1) as [[[t s2]|e] w2];
    reflexivity.
Qed.

(** X12.  Pure clearance: when every live particle has [maxBirthProb = 0]
    and the draws are strictly positive, any number of successive
    steps returns, and the totals never increase. *)
Theorem Patient_updates_pure_clearance :
  forall (n : nat) (self : Patient.t) (w : world Patient.event),
    maxPop self <> 0%Z ->
    Forall (fun i => (SimpleVirus.maxBirthProb i == 0)%Q) (viruses self) ->
    (forall k, (0 < rng w k)%Q) ->
    exists totals self' w',
      Patient_updates n self w = (Ok (totals, self'), w')
      /\ length totals = n
      /\ non_increasing (getTotalPop self) totals.
Proof.
  induction n as [|n IH]; intros self w Hnz Hvs Hr.
  - simpl. eexists _, _, _. split; [reflexivity|]. split; simpl; auto.
  - assert (Hstep := Patient_update_exact self w Hnz). cbv zeta in Hstep.
    rewrite (Patient_no_birth (rng w) _ _ _ _
               (Patient_survivors_Forall _ (rng w) (viruses self) (pos w) Hvs)
               Hr) in Hstep.
    rewrite app_nil_r, Nat.add_0_r in Hstep.
    rewrite (Patient_updates_step n _ _ _ _ _ Hstep).
    match goal with |- context [Patient_updates n ?s ?w1] =>
      destruct (IH s w1) as (totals & self' & w' & Hrun & Hlen & Hmono)
    end.
    + exact Hnz.
    + cbn [viruses]. apply Patient_survivors_Forall. exact Hvs.
    + exact Hr.
    + rewrite Hrun. eexists _, _, _. split; [reflexivity|].
      split; [simpl; lia|].
      simpl. split.
      * unfold getTotalPop. apply Patient_survivors_length.
      * exact Hmono.
Qed.

(** Three steps of one particle with [maxBirthProb = 0]. *)
Lemma Patient_updates_pure_clearance_witness :
  exists totals self' w',
    Patient_updates 3 (Patient.new [SimpleVirus.mk 0 0 (1#2)] 10)
      (Inputs.start (Inputs.always (1#2)))
    = (Ok (totals, self'), w')
    /\ length totals = 3
    /\ non_increasing
         (getTotalPop (Patient.new [SimpleVirus.mk 0 0 (1#2)] 10)) totals.
Proof.
  apply (Patient_updates_pure_clearance 3
           (Patient.new [SimpleVirus.mk 0 0 (1#2)] 10)
           (Inputs.start (Inputs.always (1#2)))).
  - simpl. lia.
  - repeat constructor.
  - intros k. reflexivity.
Defined.

End PatientSteps.

(** ** TreatedPatient.update: who reproduces, and what the offspring are *)

Section TreatedSound.
Import TreatedPatient TreatedCalls.

Lemma dict_get_set (d : dict) k v s :
  dict_get (dict_set d k v) s
  = if String.eqb s k then Some v else dict_get d s.
Proof.
  induction d as [|[k' v'] rest IH]; simpl.
  - destruct (String.eqb s k); reflexivity.
  - destruct (String.eqb_spec k k') as [->|Hne]; simpl.
    + destruct (String.eqb s k'); reflexivity.
    + rewrite IH. destruct (String.eqb_spec s k') as [->|Hne'].
      * destruct (String.eqb_spec k' k); [congruence|reflexivity].
      * reflexivity.
Qed.

Lemma mutate_loop_keys {E} self ks : forall acc (w : world E),
  incl ks (keys (ResistantVirus.resistances self)) ->
  exists acc',
    for_each ks (ResistantVirus.mutate_step self) acc w =
    (Ok acc', mkWorld (rng w) (pos w + length ks) (next_id w) (calls w))
    /\ forall s, dict_get acc' s = None
                 <-> dict_get acc s = None /\ ~ In s ks.
Proof.
  induction ks as [|k rest IH]; intros acc w Hin; simpl.
  - exists acc. unfold ret. rewrite Nat.add_0_r, world_eta.
    split; [reflexivity|]. intros s. tauto.
  - assert (Hk : In k (keys (ResistantVirus.resistances self)))
      by (apply Hin; left; auto).
    destruct (dict_get_keys _ _ Hk) as [v Hv].
    assert (Hrest : incl rest (keys (ResistantVirus.resistances self)))
      by (intros x Hx; apply Hin; right; auto).
    assert (Hiff : forall x (acc' : dict),
              (forall s, dict_get acc' s = None
                         <-> dict_get (dict_set acc k x) s = None
                             /\ ~ In s rest) ->
              forall s, dict_get acc' s = None
                        <-> dict_get acc s = None /\ ~ In s (k :: rest)).
    { intros x acc' H s. rewrite H, dict_get_set. simpl.
      destruct (String.eqb_spec s k) as [->|Hne]; split.
      - intros [H1 _]; discriminate.
      - intros [_ H2]. exfalso; apply H2; left; reflexivity.
      - intros [H1 H2]. split; auto. intros [Hx|Hx]; [congruence|auto].
      - intros [H1 H2]. split; auto. }
    unfold bind at 1, ResistantVirus.mutate_step at 1, bind at 1, random.
    simpl.
    destruct (ge _ _); unfold bind, lift, ret; simpl; rewrite Hv;
      match goal with |- context [for_each rest _ ?a ?w'] =>
        destruct (IH a w' Hrest) as (acc' & Hacc & Hkeys)
      end; rewrite Hacc; simpl; exists acc'; split;
      try (eapply Hiff; exact Hkeys); do 2 f_equal; lia.
Qed.

(** An offspring has the traits of its parent. *)
Lemma reproduce_traits {E} self d active (w w' : world E) c :
  ResistantVirus.reproduce self d active w = (Ok c, w') ->
  same_traits self c.
Proof.
  unfold ResistantVirus.reproduce. unfold bind at 1, lift.
  destruct (rfor_each active (ResistantVirus.resist_step self) true)
    as [b|e]; [|discriminate].
  destruct b; [|unfold raise; discriminate].
  match goal with |- context [bind (if ?c then ?a else ?b) _ w] =>
    assert (Hm : exists acc' k,
               (if c then a else b) w
               = (Ok acc', mkWorld (rng w) k (next_id w) (calls w))
               /\ forall s, dict_get acc' s = None
                    <-> dict_get (ResistantVirus.resistances self) s = None)
  end.
  { destruct (length (ResistantVirus.resistances self) =? 0) eqn:L;
      cbn [negb].
    - exists [], (pos w). unfold ret. rewrite world_eta.
      split; [reflexivity|]. apply Nat.eqb_eq in L.
      destruct (ResistantVirus.resistances self); [|discriminate].
      intros s. tauto.
    - destruct (mutate_loop_keys self (keys (ResistantVirus.resistances self))
                  [] w (incl_refl _)) as (acc' & Hacc & Hkeys).
      exists acc', (pos w + length (keys (ResistantVirus.resistances self))).
      split; [exact Hacc|].
      intros s. rewrite Hkeys. split.
      + intros [_ H]. apply dict_get_absent. exact H.
      + intros H. split; [reflexivity|]. apply dict_get_absent. exact H. }
  destruct Hm as (acc' & k & Hm & Hkeys).
  unfold bind at 1. rewrite Hm. unfold bind at 1, random. simpl.
  destruct (ge _ _); [|unfold raise; discriminate].
  unfold ResistantVirus.new, bind, fresh_id, ret. simpl.
  intros H. inversion H; subst. unfold same_traits. simpl. auto.
Qed.

Lemma configured_same_traits i c :
  same_traits i c -> forall D, configured D c = configured D i.
Proof.
  intros (_ & _ & _ & Hkeys) D. unfold configured.
  assert (He : (length (ResistantVirus.resistances c) =? 0)
               = (length (ResistantVirus.resistances i) =? 0)).
  { destruct (ResistantVirus.resistances c) as [|[kc vc] rc] eqn:Rc;
      destruct (ResistantVirus.resistances i) as [|[ki vi] ri] eqn:Ri;
      simpl; auto.
    - specialize (Hkeys ki). simpl in Hkeys. rewrite String.eqb_refl in Hkeys.
      destruct Hkeys as [Hk _]. specialize (Hk eq_refl). discriminate.
    - specialize (Hkeys kc). simpl in Hkeys. rewrite String.eqb_refl in Hkeys.
      destruct Hkeys as [_ Hk]. specialize (Hk eq_refl). discriminate. }
  rewrite He. f_equal.
  induction D as [|x rest IH]; simpl; auto.
  rewrite IH. f_equal.
  destruct x as [s|l]; simpl; auto.
  specialize (Hkeys s).
  destruct (dict_get (ResistantVirus.resistances c) s),
           (dict_get (ResistantVirus.resistances i) s); auto.
  - destruct Hkeys as [_ H]. specialize (H eq_refl). discriminate.
  - destruct Hkeys as [H _]. specialize (H eq_refl). discriminate.
Qed.

(** One iteration of the second loop, with what its call says. *)
Lemma Treated_reproduce_step_sound i self w :
  exists evs k n r,
    reproduce_step i self w = (r, mkWorld (rng w) k n (calls w ++ evs))
    /\ Forall (sound_call (Prescriptions self)) evs
    /\ length evs <= 1
    /\ next_id w <= n
    /\ Forall (fun c => next_id w <= ResistantVirus.oid c < n)
         (offspring evs)
    /\ incl (parents evs) [i]
    /\ (forall self', r = Ok self' ->
          self' = set_newViruses (newViruses self ++ offspring evs) self).
Proof.
  unfold reproduce_step. unfold bind at 1, lift.
  destruct (rfor_each (Prescriptions self) (reproductiv_step i) true)
    as [b|e] eqn:R.
  - destruct (b || _).
    + unfold try_except_NoChild, bind, call_reproduce.
      destruct (ResistantVirus_reproduce_shape i (popDensity self)
                  (Prescriptions self) w) as (out & k & n & Hrun & Hout).
      assert (Hsound : forall c, out = Ok c ->
                eligible (Prescriptions self) i = true /\ same_traits i c).
      { intros c ->. split.
        - eapply reproduce_returns_eligible; eauto.
        - eapply reproduce_traits; eauto. }
      rewrite Hrun.
      exists [Reproduce i (popDensity self) (Prescriptions self) out], k, n.
      destruct out as [c|e]; simpl.
      * destruct Hout as (Hid & Hn & _).
        destruct (Hsound c eq_refl) as [He Ht].
        eexists. split; [reflexivity|].
        split; [constructor; [simpl; split; [reflexivity|split; assumption]
                             |constructor]|].
        split; [lia|]. split; [lia|].
        split; [repeat constructor; lia|].
        split; [intros x Hx; exact Hx|].
        intros self' H; inversion H; reflexivity.
      * assert (Hn : n = next_id w) by (destruct e; tauto).
        subst n.
        destruct e; simpl; unfold ret;
          (eexists; split; [reflexivity|]);
          (split; [constructor; [exact I|constructor]|]);
          (split; [lia|]); (split; [lia|]);
          (split; [constructor|]);
          (split; [intros x Hx; exact Hx|]);
          intros self' H; inversion H; subst; rewrite app_nil_r;
          destruct self'; reflexivity.
    + unfold try_except_NoChild, ret.
      exists [], (pos w), (next_id w), (Ok self).
      rewrite app_nil_r, world_eta. split; [reflexivity|].
      split; [constructor|]. split; [simpl; lia|]. split; [lia|].
      split; [constructor|]. split; [intros x []|].
      intros self' H; inversion H; subst. simpl.
      rewrite app_nil_r. destruct self'; reflexivity.
  - exists [], (pos w), (next_id w), (Raise e).
    rewrite app_nil_r, world_eta. split; [reflexivity|].
    split; [constructor|]. split; [simpl; lia|]. split; [lia|].
    split; [constructor|]. split; [intros x []|].
    intros self' H; discriminate.
Qed.

Lemma offspring_length evs : length (offspring evs) <= length evs.
Proof.
  induction evs as [|e rest IH]; simpl; auto.
  destruct e as [| |i d a [c|ex]|]; simpl; lia.
Qed.

Lemma Treated_reproduce_loop_sound vs : forall self w,
  exists evs k n r,
    for_each vs reproduce_step self w
    = (r, mkWorld (rng w) k n (calls w ++ evs))
    /\ Forall (sound_call (Prescriptions self)) evs
    /\ length evs <= length vs
    /\ next_id w <= n
    /\ Forall (fun c => next_id w <= ResistantVirus.oid c < n)
         (offspring evs)
    /\ NoDup (map ResistantVirus.oid (offspring evs))
    /\ incl (parents evs) vs
    /\ (forall self', r = Ok self' ->
          self' = set_newViruses (newViruses self ++ offspring evs) self).
Proof.
  induction vs as [|i rest IH]; intros self w; simpl.
  - exists [], (pos w), (next_id w), (Ok self). unfold ret.
    rewrite !app_nil_r, world_eta. simpl.
    split; [reflexivity|]. split; [constructor|]. split; [lia|].
    split; [lia|]. split; [constructor|]. split; [constructor|].
    split; [intros x []|].
    intros self' H; inversion H; subst. rewrite ?app_nil_r.
    destruct self'; reflexivity.
  - destruct (Treated_reproduce_step_sound i self w)
      as (ev1 & k1 & n1 & r1 & Hstep & Hs1 & Hl1 & Hn1 & Hf1 & Hp1 & Hr1).
    assert (Hnd1 : NoDup (map ResistantVirus.oid (offspring ev1))).
    { assert (Hlen := offspring_length ev1).
      destruct (offspring ev1) as [|c [|c' tl]]; simpl in *;
        [constructor|repeat constructor; intros []|lia]. }
    unfold bind at 1. rewrite Hstep.
    destruct r1 as [self1|e].
    + rewrite (Hr1 self1 eq_refl).
      match goal with |- context [for_each rest reproduce_step ?s ?w'] =>
        destruct (IH s w')
          as (evs & k & n & r & Hloop & Hs & Hl & Hn & Hf & Hnd & Hp & Hr)
      end.
      simpl in *. rewrite Hloop.
      exists (ev1 ++ evs), k, n, r.
      rewrite <- app_assoc. split; [reflexivity|].
      split; [apply Forall_app; auto|].
      split; [rewrite length_app; lia|].
      split; [lia|].
      unfold offspring in *. rewrite flat_map_app.
      split.
      { apply Forall_app. split.
        - eapply Forall_impl; [|exact Hf1]. simpl; intros; lia.
        - eapply Forall_impl; [|exact Hf]. simpl; intros; lia. }
      split.
      { rewrite map_app. apply NoDup_app; auto.
        intros x Hx1 Hx2.
        apply in_map_iff in Hx1 as (c1 & <- & Hc1).
        apply in_map_iff in Hx2 as (c2 & Heq & Hc2).
        rewrite Forall_forall in Hf1, Hf.
        specialize (Hf1 c1 Hc1). specialize (Hf c2 Hc2). lia. }
      split.
      { unfold parents in *. rewrite flat_map_app.
        intros x Hx. apply in_app_or in Hx as [Hx|Hx].
        - apply Hp1 in Hx. destruct Hx as [<-|[]]. left; auto.
        - right. apply Hp; auto. }
      intros self' Heq. rewrite (Hr self' Heq).
      unfold set_newViruses; simpl. rewrite <- app_assoc. reflexivity.
    + exists ev1, k1, n1, (Raise e). split; [reflexivity|].
      split; [exact Hs1|]. split; [lia|]. split; [exact Hn1|].
      split; [exact Hf1|]. split; [exact Hnd1|].
      split.
      { intros x Hx. apply Hp1 in Hx. destruct Hx as [<-|[]]. left; auto. }
      intros self' H; discriminate.
Qed.

(** [update] on a treated patient, with what its calls say. *)
Lemma Treated_update_sound self w :
  maxPop self <> 0%Z ->
  let cl := clear_calls (rng w) (pos w) (viruses self) in
  let sv := survivors_of cl in
  let d := (inject_Z (Z.of_nat (length sv)) / inject_Z (maxPop self))%Q in
  exists rp k n r,
    update self w =
    (r, mkWorld (rng w) k n (calls w ++ cl ++ SetPopDensity d :: rp))
    /\ Forall (sound_call (Prescriptions self)) rp
    /\ length rp <= length sv
    /\ next_id w <= n
    /\ Forall (fun c => next_id w <= ResistantVirus.oid c < n)
         (offspring rp)
    /\ NoDup (map ResistantVirus.oid (offspring rp))
    /\ incl (parents rp) sv
    /\ (forall m self', r = Ok (m, self') ->
          m = length sv + length (offspring rp)
          /\ self' = mk (sv ++ offspring rp) (maxPop self)
                       (prescription self) (Prescriptions self)
                       sv (offspring rp) d (resistantViruses self)).
Proof.
  intros Hmax cl sv d. unfold update. unfold bind at 1.
  rewrite Treated_clear_loop. simpl. fold cl. fold sv.
  unfold bind at 1, lift, true_div. simpl.
  destruct (Z.eqb_spec (maxPop self) 0) as [E|_]; [contradiction|].
  fold d. unfold bind at 1, record. simpl.
  unfold bind at 1.
  match goal with |- context [for_each ?vs reproduce_step ?s ?w'] =>
    destruct (Treated_reproduce_loop_sound vs s w')
      as (rp & k & n & r & Hloop & Hs & Hl & Hn & Hf & Hnd & Hp & Hr)
  end.
  simpl in *. rewrite Hloop.
  destruct r as [self'|e].
  - rewrite (Hr self' eq_refl). unfold ret. simpl.
    exists rp, k, n. eexists (Ok (_, _)). rewrite <- !app_assoc.
    split; [reflexivity|]. repeat (split; [assumption|]).
    intros m s' H; inversion H; subst. split; [apply length_app|reflexivity].
  - exists rp, k, n, (Raise e). rewrite <- !app_assoc.
    split; [reflexivity|]. repeat (split; [assumption|]).
    intros m s' H; discriminate.
Qed.

Lemma Treated_survivors_length r vs : forall k,
  length (survivors_of (clear_calls r k vs)) <= length vs.
Proof.
  induction vs as [|i rest IH]; intros k; simpl; auto.
  destruct (ge _ _); simpl; specialize (IH (S k)); lia.
Qed.

(** A configured patient with a non-zero [maxPop]: [update] returns. *)
Lemma Treated_update_configured self w :
  maxPop self <> 0%Z ->
  forallb (configured (Prescriptions self)) (viruses self) = true ->
  let cl := clear_calls (rng w) (pos w) (viruses self) in
  let sv := survivors_of cl in
  let d := (inject_Z (Z.of_nat (length sv)) / inject_Z (maxPop self))%Q in
  exists rp k n,
    update self w =
    (Ok (length sv + length (offspring rp),
         mk (sv ++ offspring rp) (maxPop self) (prescription self)
            (Prescriptions self) sv (offspring rp) d (resistantViruses self)),
     mkWorld (rng w) k n (calls w ++ cl ++ SetPopDensity d :: rp))
    /\ Forall (sound_call (Prescriptions self)) rp
    /\ length rp <= length sv
    /\ next_id w <= n
    /\ Forall (fun c => next_id w <= ResistantVirus.oid c < n)
         (offspring rp)
    /\ NoDup (map ResistantVirus.oid (offspring rp))
    /\ incl (parents rp) sv.
Proof.
  intros Hnz Hcfg cl sv d.
  destruct (Treated_update_sound self w Hnz)
    as (rp & k & n & r & Hrun & Hs & Hl & Hn & Hf & Hnd & Hp & Hr).
  destruct (Treated_update_run self w Hnz)
    as (rp0 & k0 & n0 & r0 & Hrun0 & _ & _ & _ & _ & Hr0).
  rewrite Hrun in Hrun0. inversion Hrun0; subst r0.
  destruct r as [[m self']|e].
  - destruct (Hr m self' eq_refl) as [-> ->].
    exists rp, k, n. fold cl sv d. split; [exact Hrun|].
    repeat (split; [assumption|]). assumption.
  - exfalso. destruct Hr0 as [_ Hbad].
    destruct (Treated_clear_calls_shape (rng w) (viruses self) (pos w))
      as (_ & _ & _ & Hincl).
    rewrite (forallb_incl _ _ _ Hincl Hbad) in Hcfg. discriminate.
Qed.

End TreatedSound.

(** ** TreatedPatient.update: invariants of a configured patient *)

Section TreatedSteps.
Import TreatedPatient TreatedCalls.

Lemma offspring_have_parents a rp :
  Forall (sound_call a) rp ->
  Forall (fun c => exists i, In i (parents rp)
                             /\ eligible a i = true /\ same_traits i c)
         (offspring rp).
Proof.
  induction 1 as [|e rest He _ IH]; simpl; [constructor|].
  assert (IH' : Forall (fun c => exists i,
                          In i (parents (e :: rest))
                          /\ eligible a i = true /\ same_traits i c)
                  (offspring rest)).
  { eapply Forall_impl; [|exact IH].
    intros c (i & Hi & H). exists i. split; auto.
    unfold parents in *. simpl. apply in_or_app. right; exact Hi. }
  destruct e as [| |i d a' [c|ex]|]; simpl in *; auto.
  destruct He as (_ & Hel & Htr).
  constructor; [|exact IH'].
  exists i. split; [left; reflexivity|]. split; assumption.
Qed.

Lemma Treated_survivors_sub (r : nat -> Q) vs : forall k,
  incl (survivors_of (clear_calls r k vs)) vs
  /\ (NoDup (map ResistantVirus.oid vs) ->
      NoDup (map ResistantVirus.oid (survivors_of (clear_calls r k vs)))).
Proof.
  induction vs as [|i rest IH]; intros k; simpl.
  - split; [intros x []|auto].
  - destruct (IH (S k)) as [Hincl Hnd].
    destruct (ge _ _); simpl.
    + split; [intros x Hx; right; apply Hincl; exact Hx|].
      intros H. inversion H; subst. auto.
    + split; [intros x [Hx|Hx]; [left; exact Hx|right; apply Hincl; exact Hx]|].
      intros H. inversion H as [|? ? Hnot Hrest]; subst.
      constructor; [|auto].
      intros Hin. apply Hnot.
      apply in_map_iff in Hin as (c & Heq & Hc).
      apply in_map_iff. exists c. split; [exact Heq|]. apply Hincl; exact Hc.
Qed.

(** Everything one step of a configured treated patient guarantees. *)
Lemma Treated_update_invariant self w :
  maxPop self <> 0%Z ->
  forallb (configured (Prescriptions self)) (viruses self) = true ->
  exists n self' w',
    update self w = (Ok (n, self'), w')
    /\ viruses self' = survivorViruses self' ++ newViruses self'
    /\ n = length (survivorViruses self') + length (newViruses self')
    /\ incl (survivorViruses self') (viruses self)
    /\ length (survivorViruses self') <= length (viruses self)
    /\ length (newViruses self') <= length (survivorViruses self')
    /\ (NoDup (map ResistantVirus.oid (viruses self)) ->
        NoDup (map ResistantVirus.oid (survivorViruses self')))
    /\ Forall (fun c => exists i, In i (survivorViruses self')
                          /\ eligible (Prescriptions self) i = true
                          /\ same_traits i c) (newViruses self')
    /\ NoDup (map ResistantVirus.oid (newViruses self'))
    /\ Forall (fun c => next_id w <= ResistantVirus.oid c < next_id w')
         (newViruses self')
    /\ next_id w <= next_id w'
    /\ rng w' = rng w
    /\ maxPop self' = maxPop self
    /\ prescription self' = prescription self
    /\ Prescriptions self' = Prescriptions self
    /\ resistantViruses self' = resistantViruses self.
Proof.
  intros Hnz Hcfg.
  destruct (Treated_update_configured self w Hnz Hcfg)
    as (rp & k & n & Hrun & Hs & Hl & Hn & Hf & Hnd & Hp).
  destruct (Treated_survivors_sub (rng w) (viruses self) (pos w))
    as [Hincl Hnds].
  eexists _, _, _. split; [exact Hrun|].
  cbn [viruses survivorViruses newViruses maxPop prescription Prescriptions
       resistantViruses rng next_id].
  split; [reflexivity|]. split; [reflexivity|]. split; [exact Hincl|].
  split; [apply Treated_survivors_length|].
  split; [pose proof (offspring_length rp); lia|].
  split; [exact Hnds|].
  split.
  { eapply Forall_impl; [|exact (offspring_have_parents _ _ Hs)].
    intros c (i & Hi & H). exists i. split; [apply Hp; exact Hi|exact H]. }
  repeat (split; [assumption || reflexivity|]). reflexivity.
Qed.

Lemma configured_after_update self self' D :
  incl (survivorViruses self') (viruses self) ->
  Forall (fun c => exists i, In i (survivorViruses self')
                        /\ eligible (Prescriptions self) i = true
                        /\ same_traits i c) (newViruses self') ->
  viruses self' = survivorViruses self' ++ newViruses self' ->
  forallb (configured D) (viruses self) = true ->
  forallb (configured D) (viruses self') = true.
Proof.
  intros Hincl Hnew -> Hcfg.
  rewrite forallb_forall in Hcfg.
  rewrite forallb_app. apply andb_true_intro. split.
  - apply forallb_forall. intros x Hx. apply Hcfg, Hincl, Hx.
  - apply forallb_forall. intros c Hc.
    rewrite Forall_forall in Hnew.
    destruct (Hnew c Hc) as (i & Hi & _ & Htr).
    rewrite (configured_same_traits i c Htr). apply Hcfg, Hincl, Hi.
Qed.

(** X13.  One step of a treated patient whose particles all have an entry
    for every administered drug (or an empty map) returns; the total is
    between the number of survivors and twice that number; [maxPop] and
    the administered drugs are left as they were; and the particles
    after the step again have an entry for every drug the particles
    before it had one for. *)
Theorem Treated_update_keeps_configuration :
  forall (self : TreatedPatient.t) (w : world TreatedPatient.event),
    maxPop self <> 0%Z ->
    forallb (configured (Prescriptions self)) (viruses self) = true ->
    exists n self' w',
      update self w = (Ok (n, self'), w')
      /\ length (survivorViruses self') <= n
         <= 2 * length (survivorViruses self')
      /\ n <= 2 * getTotalPop self
      /\ maxPop self' = maxPop self
      /\ Prescriptions self' = Prescriptions self
      /\ forall D, forallb (configured D) (viruses self) = true ->
                   forallb (configured D) (viruses self') = true.
Proof.
  intros self w Hnz Hcfg.
  destruct (Treated_update_invariant self w Hnz Hcfg)
    as (n & self' & w' & Hrun & Hv & Hn & Hincl & Hls & Hln & _ & Hnew
        & _ & _ & _ & _ & Hmax & _ & HP & _).
  exists n, self', w'. split; [exact Hrun|].
  unfold getTotalPop. split; [lia|]. split; [lia|].
  split; [exact Hmax|]. split; [exact HP|].
  intros D. apply configured_after_update; assumption.
Qed.

(** A resistant and a susceptible particle under the administered
    drug "a". *)
Lemma Treated_update_keeps_configuration_witness :
  exists n self' w',
    update Mixed.patient Mixed.start = (Ok (n, self'), w')
    /\ length (survivorViruses self') <= n
       <= 2 * length (survivorViruses self')
    /\ n <= 2 * getTotalPop Mixed.patient
    /\ maxPop self' = maxPop Mixed.patient
    /\ Prescriptions self' = Prescriptions Mixed.patient
    /\ forall D, forallb (configured D) (viruses Mixed.patient) = true ->
                 forallb (configured D) (viruses self') = true.
Proof.
  apply (Treated_update_keeps_configuration Mixed.patient Mixed.start).
  - simpl. lia.
  - reflexivity.
Defined.




(** X15.  Distinct identities are kept: when the live particles of a treated
    patient have pairwise distinct identities, all handed out already,
    the same holds after a step. *)
Theorem Treated_update_keeps_identities :
  forall (self : TreatedPatient.t) (w : world TreatedPatient.event)
         (n : nat) (self' : TreatedPatient.t) (w' : world TreatedPatient.event),
    maxPop self <> 0%Z ->
    forallb (configured (Prescriptions self)) (viruses self) = true ->
    distinct_identities (viruses self) (next_id w) ->
    update self w = (Ok (n, self'), w') ->
    distinct_identities (viruses self') (next_id w').
Proof.
  intros self w n self' w' Hnz Hcfg [Hnd Hlt] Hrun.
  destruct (Treated_update_invariant self w Hnz Hcfg)
    as (n0 & self0 & w0 & Hrun0 & Hv & _ & Hincl & _ & _ & Hnds & _
        & Hndn & Hrange & Hle & _).
  rewrite Hrun in Hrun0. inversion Hrun0; subst n0 self0 w0. clear Hrun0.
  rewrite Forall_forall in Hlt, Hrange.
  unfold distinct_identities. rewrite Hv. split.
  - rewrite map_app. apply NoDup_app; auto.
    intros x Hx1 Hx2.
    apply in_map_iff in Hx1 as (c1 & <- & Hc1).
    apply in_map_iff in Hx2 as (c2 & Heq & Hc2).
    specialize (Hlt c1 (Hincl c1 Hc1)). specialize (Hrange c2 Hc2). lia.
  - apply Forall_app. split; apply Forall_forall; intros c Hc.
    + specialize (Hlt c (Hincl c Hc)). lia.
    + specialize (Hrange c Hc). lia.
Qed.

(** The same step: identities 0 and 1 after it, 2 the next free one. *)
Lemma Treated_update_keeps_identities_witness :
  distinct_identities
    [Inputs.resistant_a; ResistantVirus.mk 1 1 0 [("a"%string, true)] 0] 2.
Proof.
  apply (Treated_update_keeps_identities Inputs.untreated
           (Inputs.start (Inputs.always (1#2))) 2
           (mk [Inputs.resistant_a;
                ResistantVirus.mk 1 1 0 [("a"%string, true)] 0] 10 [] []
               [Inputs.resistant_a]
               [ResistantVirus.mk 1 1 0 [("a"%string, true)] 0] (1#10) 0)
           (mkWorld (Inputs.always (1#2)) 3 2
              [DoesClear Inputs.resistant_a false;
               SetPopDensity (1#10);
               Reproduce Inputs.resistant_a (1#10) []
                 (Ok (ResistantVirus.mk 1 1 0 [("a"%string, true)] 0))])).
  - simpl. lia.
  - reflexivity.
  - split; simpl; repeat constructor. intros [].
  - vm_compute. reflexivity.
Defined.

Lemma Treated_updates_step n self w m s1 w1 :
  update self w = (Ok (m, s1), w1) ->
  Treated_updates (S n) self w =
  match Treated_updates n s1 w1 with
  | (Ok (t, s2), w2) => (Ok (m :: t, s2), w2)
  | (Raise e, w2) => (Raise e, w2)
  end.
Proof.
  intros H. simpl. unfold bind at 1. rewrite H. cbn [snd fst].
  unfold bind. destruct (Treated_updates n s1 w1) as [[[t s2]|e] w2];
    reflexivity.
Qed.

(** X16.  A treated patient that starts configured never raises: any number
    of successive steps returns, with the administered drugs unchanged
    and the patient still configured. *)
Theorem Treated_updates_never_raise :
  forall (n : nat) (self : TreatedPatient.t) (w : world TreatedPatient.event),
    maxPop self <> 0%Z ->
    forallb (configured (Prescriptions self)) (viruses self) = true ->
    exists totals self' w',
      Treated_updates n self w = (Ok (totals, self'), w')
      /\ length totals = n
      /\ Prescriptions self' = Prescriptions self
      /\ forallb (configured (Prescriptions self)) (viruses self') = true.
Proof.
  induction n as [|n IH]; intros self w Hnz Hcfg.
  - simpl. eexists _, _, _. split; [reflexivity|]. auto.
  - destruct (Treated_update_invariant self w Hnz Hcfg)
      as (m & s1 & w1 & Hrun & Hv & _ & Hincl & _ & _ & _ & Hnew
          & _ & _ & _ & _ & Hmax & _ & HP & _).
    assert (Hcfg1 : forallb (configured (Prescriptions self)) (viruses s1)
                    = true)
      by (eapply configured_after_update; eauto).
    rewrite (Treated_updates_step n _ _ _ _ _ Hrun).
    destruct (IH s1 w1) as (totals & self' & w' & Hrest & Hlen & HP' & Hc').
    + rewrite Hmax. exact Hnz.
    + rewrite HP. exact Hcfg1.
    + rewrite Hrest. eexists _, _, _. split; [reflexivity|].
      split; [simpl; lia|]. split; [congruence|].
      rewrite <- HP. exact Hc'.
Qed.

(** Three steps of the particle with map {"a": False} under drug "a". *)
Lemma Treated_updates_never_raise_witness :
  exists totals self' w',
    Treated_updates 3
      (addPrescription (DStr "a") (TreatedPatient.new [Inputs.susceptible_a] 10 []))
      (Inputs.start (Inputs.always (1#2)))
    = (Ok (totals, self'), w')
    /\ length totals = 3
    /\ Prescriptions self' = [DStr "a"]
    /\ forallb (configured [DStr "a"]) (viruses self') = true.
Proof.
  apply (Treated_updates_never_raise 3
           (addPrescription (DStr "a")
              (TreatedPatient.new [Inputs.susceptible_a] 10 []))
           (Inputs.start (Inputs.always (1#2)))).
  - simpl. lia.
  - reflexivity.
Defined.

(** X17.  Effective treatment: when every live particle has an entry for
    every administered drug and none passes the gate, any number of
    successive steps returns, no particle is ever added, and the
    totals never increase. *)
Theorem Treated_updates_under_effective_drugs :
  forall (n : nat) (self : TreatedPatient.t) (w : world TreatedPatient.event),
    maxPop self <> 0%Z ->
    forallb (configured (Prescriptions self)) (viruses self) = true ->
    forallb (fun i => negb (eligible (Prescriptions self) i)) (viruses self)
    = true ->
    exists totals self' w',
      Treated_updates n self w = (Ok (totals, self'), w')
      /\ length totals = n
      /\ non_increasing (getTotalPop self) totals
      /\ incl (viruses self') (viruses self).
Proof.
  induction n as [|n IH]; intros self w Hnz Hcfg Hnone.
  - simpl. eexists _, _, _. split; [reflexivity|].
    split; [reflexivity|]. split; [exact I|]. intros x Hx; exact Hx.
  - destruct (Treated_update_invariant self w Hnz Hcfg)
      as (m & s1 & w1 & Hrun & Hv & Hm & Hincl & Hls & _ & _ & Hnew
          & _ & _ & _ & _ & Hmax & _ & HP & _).
    assert (Hempty : newViruses s1 = []).
    { destruct (newViruses s1) as [|c rest]; [reflexivity|].
      inversion Hnew as [|? ? (i & Hi & Hel & _) _]; subst.
      rewrite forallb_forall in Hnone.
      specialize (Hnone i (Hincl i Hi)). rewrite Hel in Hnone. discriminate. }
    rewrite Hempty, app_nil_r in Hv. rewrite Hempty in Hm. simpl in Hm.
    rewrite (Treated_updates_step n _ _ _ _ _ Hrun).
    destruct (IH s1 w1)
      as (totals & self' & w' & Hrest & Hlen & Hmono & Hsub).
    + rewrite Hmax. exact Hnz.
    + rewrite HP, Hv. apply forallb_forall. intros x Hx.
      rewrite forallb_forall in Hcfg. apply Hcfg, Hincl, Hx.
    + rewrite HP, Hv. apply forallb_forall. intros x Hx.
      rewrite forallb_forall in Hnone. apply Hnone, Hincl, Hx.
    + rewrite Hrest. eexists _, _, _. split; [reflexivity|].
      split; [simpl; lia|]. split.
      * simpl. unfold getTotalPop in *. rewrite Hv in Hmono.
        split; [lia|]. replace m with (length (survivorViruses s1)) by lia.
        exact Hmono.
      * intros x Hx. apply Hincl. rewrite <- Hv. apply Hsub, Hx.
Qed.

Lemma Treated_updates_under_effective_drugs_witness :
  exists totals self' w',
    Treated_updates 3
      (addPrescription (DStr "a") (TreatedPatient.new [Inputs.susceptible_a] 10 []))
      (Inputs.start (Inputs.always (1#2)))
    = (Ok (totals, self'), w')
    /\ length totals = 3
    /\ non_increasing 1 totals
    /\ incl (viruses self') [Inputs.susceptible_a].
Proof.
  apply (Treated_updates_under_effective_drugs 3
           (addPrescription (DStr "a")
              (TreatedPatient.new [Inputs.susceptible_a] 10 []))
           (Inputs.start (Inputs.always (1#2)))).
  - simpl. lia.
  - reflexivity.
  - reflexivity.
Defined.

End TreatedSteps.

(** ** The drivers *)

Section Drivers.

Lemma for_each_seq_inv {E B} (I : nat -> B -> world E -> Prop)
    (body : nat -> B -> M E B) : forall m a acc w,
  (forall i acc w, a <= i < a + m -> I i acc w ->
     exists acc' w', body i acc w = (Ok acc', w') /\ I (S i) acc' w') ->
  I a acc w ->
  exists acc' w',
    for_each (seq a m) body acc w = (Ok acc', w') /\ I (a + m) acc' w'.
Proof.
  induction m as [|m IH]; intros a acc w Hbody HI; simpl.
  - exists acc, w. rewrite Nat.add_0_r. split; [reflexivity|exact HI].
  - destruct (Hbody a acc w) as (acc1 & w1 & Hstep & HI1); [lia|exact HI|].
    unfold bind. rewrite Hstep.
    destruct (IH (S a) acc1 w1) as (acc' & w' & Hloop & HI').
    + intros i acc0 w0 Hi. apply Hbody. lia.
    + exact HI1.
    + exists acc', w'. split; [exact Hloop|].
      replace (a + S m) with (S a + m) by lia. exact HI'.
Qed.

Lemma list_getitem_middle {A} (pre : list A) x suf :
  list_getitem (pre ++ x :: suf) (length pre) = Ok x.
Proof.
  unfold list_getitem. rewrite nth_error_app2 by lia.
  rewrite Nat.sub_diag. reflexivity.
Qed.

Lemma list_update_middle {A} (pre : list A) x y suf :
  list_update (pre ++ x :: suf) (length pre) y = pre ++ y :: suf.
Proof.
  induction pre as [|p pre IH]; simpl; [reflexivity|]. f_equal. exact IH.
Qed.

Lemma list_setitem_middle {A} (pre : list A) x y suf :
  list_setitem (pre ++ x :: suf) (length pre) y = Ok (pre ++ y :: suf).
Proof.
  unfold list_setitem. rewrite length_app. simpl.
  replace (length pre <? length pre + S (length suf)) with true
    by (symmetry; apply Nat.ltb_lt; lia).
  rewrite list_update_middle. reflexivity.
Qed.

Lemma list_update_length {A} (l : list A) : forall i x,
  length (list_update l i x) = length l.
Proof.
  induction l as [|y rest IH]; intros [|i] x; simpl; auto.
Qed.

Lemma average_loop n suf : forall pre,
  n <> 0 ->
  rfor_each (seq (length pre) (length suf))
    (fun y ys =>
       rbind (list_getitem ys y) (fun old =>
       rbind (num_div old n) (fun q => list_setitem ys y q)))
    (pre ++ suf)
  = Ok (pre ++ map (fun y => (y / num n)%Q) suf).
Proof.
  induction suf as [|x rest IH]; intros pre Hn; simpl.
  - reflexivity.
  - assert (Hdiv : num_div x n = Ok (x / num n)%Q).
    { unfold num_div. destruct (Nat.eqb_spec n 0); [contradiction|].
      reflexivity. }
    rewrite list_getitem_middle. cbn [rbind]. rewrite Hdiv. cbn [rbind].
    rewrite list_setitem_middle. cbn [rbind].
    specialize (IH (pre ++ [(x / num n)%Q]) Hn).
    rewrite length_app in IH. simpl in IH.
    rewrite Nat.add_1_r in IH. rewrite <- !app_assoc in IH. simpl in IH.
    exact IH.
Qed.

Lemma average_run ys n :
  n <> 0 -> average ys n = Ok (map (fun y => (y / num n)%Q) ys).
Proof. intros Hn. exact (average_loop n ys [] Hn). Qed.

(** X18.  The closing loop of both drivers, [ys[y] = ys[y] / numTrials] for
    every index: with a non-zero [numTrials] it divides every entry and
    never raises [IndexError]; with [numTrials = 0] it returns an empty
    list as it is and raises [ZeroDivisionError] on any other. *)
Theorem average_divides_each :
  forall (ys : list Q) (numTrials : nat),
    average ys numTrials
    = if numTrials =? 0
      then match ys with
           | [] => Ok []
           | _ :: _ => Raise ZeroDivisionError
           end
      else Ok (map (fun y => (y / num numTrials)%Q) ys).
Proof.
  intros ys n. unfold average, range.
  destruct (Nat.eqb_spec n 0) as [->|Hn].
  - destruct ys as [|y rest]; reflexivity.
  - exact (average_loop n ys [] Hn).
Qed.

Lemma add_at_length ys i v :
  length ys = i \/ i < length ys ->
  exists ys', add_at ys i v = Ok ys'
              /\ length ys' = Nat.max (length ys) (S i).
Proof.
  unfold add_at. intros [H|H].
  - replace (length ys =? i) with true by (symmetry; apply Nat.eqb_eq; auto).
    eexists. split; [reflexivity|]. rewrite length_app. simpl. lia.
  - replace (length ys =? i) with false by (symmetry; apply Nat.eqb_neq; lia).
    unfold list_getitem.
    destruct (nth_error ys i) as [old|] eqn:N.
    + simpl. unfold list_setitem.
      replace (i <? length ys) with true by (symmetry; apply Nat.ltb_lt; auto).
      eexists. split; [reflexivity|]. rewrite list_update_length. lia.
    + apply nth_error_None in N. lia.
Qed.

Lemma Patient_update_returns (self : Patient.t) w :
  Patient.maxPop self <> 0%Z ->
  exists n self' w',
    Patient.update self w = (Ok (n, self'), w')
    /\ Patient.maxPop self' = Patient.maxPop self.
Proof.
  intros Hnz. rewrite (Patient_update_exact self w Hnz).
  eexists _, _, _. split; reflexivity.
Qed.

(** The loop over 300 steps of one trial. *)
Lemma plain_steps_run m : forall a ys (p0 : Patient.t) w,
  Patient.maxPop p0 <> 0%Z ->
  length ys = a \/ a + m <= length ys ->
  exists ys' p' w',
    for_each (seq a m) plain_step (ys, p0) w = (Ok (ys', p'), w')
    /\ length ys' = Nat.max (length ys) (a + m).
Proof.
  intros a ys p0 w Hnz Hlen.
  destruct (for_each_seq_inv
              (fun i (st : list Q * Patient.t) (_ : world Patient.event) =>
                 Patient.maxPop (snd st) <> 0%Z
                 /\ length (fst st) = Nat.max (length ys) i
                 /\ (length ys = a \/ a + m <= length ys))
              plain_step m a (ys, p0) w) as ([ys' p'] & w' & Hrun & HI).
  - intros i [ysi pi] wi Hi (Hmax & Hl & Hcase). simpl in *.
    unfold plain_step.
    destruct (Patient_update_returns pi wi Hmax)
      as (n & p1 & w1 & Hup & Hmax1).
    unfold bind at 1. rewrite Hup. cbn [snd].
    destruct (add_at_length ysi i (num (Patient.getTotalPop p1)))
      as (ys1 & Hadd & Hlen1); [lia|].
    unfold bind, lift, ret. rewrite Hadd.
    exists (ys1, p1), w1. split; [reflexivity|]. simpl.
    split; [congruence|]. split; [lia|exact Hcase].
  - simpl. split; [exact Hnz|]. split; [lia|exact Hlen].
  - exists ys', p', w'. split; [exact Hrun|]. simpl in HI. tauto.
Qed.

Lemma plain_trials_run listViruses maxPop T : forall a ys w,
  maxPop <> 0%Z ->
  length ys = 0 \/ length ys = 300 ->
  exists ys' w',
    for_each (seq a T) (plain_trial listViruses maxPop) ys w = (Ok ys', w')
    /\ length ys' = if T =? 0 then length ys else 300.
Proof.
  induction T as [|T IH]; intros a ys w Hnz Hlen; simpl.
  - exists ys, w. split; reflexivity.
  - unfold bind at 1, plain_trial at 1, range.
    destruct (plain_steps_run 300 0 ys (Patient.new listViruses maxPop) w)
      as (ys1 & p1 & w1 & Hrun & Hl1); [exact Hnz|lia|].
    unfold bind at 1. rewrite Hrun. unfold ret. cbn [fst].
    destruct (IH (S a) ys1 w1 Hnz) as (ys' & w' & Hrest & Hl'); [lia|].
    rewrite Hrest. exists ys', w'. split; [reflexivity|].
    rewrite Hl'. destruct (T =? 0); lia.
Qed.

Lemma seed_loop_run {E} b c n : forall a acc (w : world E),
  exists l w',
    for_each (seq a n)
      (fun (i : nat) (listViruses : list SimpleVirus.t) =>
         v <- SimpleVirus.new b c ;; ret (listViruses ++ [v])) acc w
    = (Ok l, w')
    /\ length l = length acc + n.
Proof.
  intros a acc w.
  destruct (for_each_seq_inv
              (fun i (l : list SimpleVirus.t) (_ : world E) =>
                 length l + a = length acc + i)
              (fun (i : nat) (listViruses : list SimpleVirus.t) =>
                 v <- SimpleVirus.new b c ;; ret (listViruses ++ [v]))
              n a acc w) as (l & w' & Hrun & HI).
  - intros i l0 w0 _ Hl. eexists _, _. split; [reflexivity|].
    rewrite length_app. simpl. lia.
  - reflexivity.
  - exists l, w'. split; [exact Hrun|lia].
Qed.

(** X19.  [simulationWithoutDrug] with a non-zero [maxPop] always returns: a
    sequence of 300 averages when there is at least one trial, the
    empty sequence when there is none. *)
Theorem simulationWithoutDrug_returns :
  forall (numViruses : nat) (maxPop : Z) (maxBirthProb clearProb : Q)
         (numTrials : nat) (w : world Patient.event),
    maxPop <> 0%Z ->
    exists ys w',
      simulationWithoutDrug numViruses maxPop maxBirthProb clearProb
        numTrials w = (Ok ys, w')
      /\ length ys = if numTrials =? 0 then 0 else 300.
Proof.
  intros nv mp b c T w Hnz. unfold simulationWithoutDrug, range.
  destruct (seed_loop_run b c nv 0 [] w) as (l & w1 & Hseed & _).
  unfold bind at 1. rewrite Hseed.
  destruct (plain_trials_run l mp T 0 [] w1 Hnz) as (ys & w2 & Hrun & Hlen);
    [left; reflexivity|].
  unfold bind at 1. rewrite Hrun.
  unfold bind, lift, ret.
  assert (Hav := average_loop T ys []).
  unfold average, range.
  destruct (Nat.eqb_spec T 0) as [->|HT].
  - simpl in Hlen. destruct ys; [|discriminate]. simpl.
    eexists _, _. split; reflexivity.
  - simpl in Hav. rewrite (Hav HT).
    eexists _, _. split; [reflexivity|]. rewrite length_map. exact Hlen.
Qed.

(** Ten particles, [maxPop = 100], two trials. *)
Lemma simulationWithoutDrug_returns_witness :
  exists ys w',
    simulationWithoutDrug 10 100 (1#10) (1#20) 2
      (Inputs.start (Inputs.always (1#2))) = (Ok ys, w')
    /\ length ys = if 2 =? 0 then 0 else 300.
Proof.
  apply (simulationWithoutDrug_returns 10 100 (1#10) (1#20) 2
           (Inputs.start (Inputs.always (1#2)))).
  lia.
Defined.

Lemma bind_raise {E A B} (m : M E A) (f : A -> M E B) w e w' :
  m w = (Raise e, w') -> bind m f w = (Raise e, w').
Proof. intros H. unfold bind. rewrite H. reflexivity. Qed.

Lemma bind_ok {E A B} (m : M E A) (f : A -> M E B) w a w' :
  m w = (Ok a, w') -> bind m f w = f a w'.
Proof. intros H. unfold bind. rewrite H. reflexivity. Qed.

Lemma for_each_cons_raise {E A B} (body : A -> B -> M E B) x xs acc w e w' :
  body x acc w = (Raise e, w') ->
  for_each (x :: xs) body acc w = (Raise e, w').
Proof. intros H. simpl. apply bind_raise. exact H. Qed.

(** X20.  [simulationWithoutDrug] with [maxPop = 0] and at least one trial
    raises [ZeroDivisionError] at the first step, whatever the number
    of particles. *)
Theorem simulationWithoutDrug_zero_maxPop :
  forall (numViruses : nat) (maxBirthProb clearProb : Q)
         (numTrials : nat) (w : world Patient.event),
    numTrials <> 0 ->
    fst (simulationWithoutDrug numViruses 0 maxBirthProb clearProb
           numTrials w) = Raise ZeroDivisionError.
Proof.
  intros nv b c T w HT. unfold simulationWithoutDrug, range.
  destruct (seed_loop_run b c nv 0 [] w) as (l & w1 & Hseed & _).
  rewrite (bind_ok _ _ _ _ _ Hseed).
  destruct T as [|T]; [contradiction|].
  destruct (Patient_update_zero (Patient.new l 0) w1 eq_refl) as [w2 Hup].
  assert (Hstep : plain_step 0 ([], Patient.new l 0) w1
                  = (Raise ZeroDivisionError, w2)).
  { unfold plain_step. apply bind_raise. exact Hup. }
  assert (Htrial : plain_trial l 0 0 [] w1 = (Raise ZeroDivisionError, w2)).
  { unfold plain_trial. apply bind_raise.
    change (range 300) with (0 :: seq 1 299).
    apply for_each_cons_raise. exact Hstep. }
  erewrite bind_raise; [reflexivity|].
  change (seq 0 (S T)) with (0 :: seq 1 T).
  apply for_each_cons_raise. exact Htrial.
Qed.

(** No particle, one trial. *)
Lemma simulationWithoutDrug_zero_maxPop_witness :
  fst (simulationWithoutDrug 0 0 (1#10) (1#20) 1
         (Inputs.start (Inputs.always (1#2)))) = Raise ZeroDivisionError.
Proof.
  apply (simulationWithoutDrug_zero_maxPop 0 (1#10) (1#20) 1
           (Inputs.start (Inputs.always (1#2)))).
  lia.
Defined.

Lemma configured_incl D' D i :
  incl D' D ->
  TreatedCalls.configured D i = true -> TreatedCalls.configured D' i = true.
Proof.
  unfold TreatedCalls.configured. intros Hincl H.
  destruct (length (ResistantVirus.resistances i) =? 0); auto.
  simpl in *. rewrite forallb_forall in *. intros d Hd. apply H, Hincl, Hd.
Qed.

Lemma getResistPop_names drugs (self : TreatedPatient.t) :
  forallb is_name drugs = true ->
  TreatedPatient.getResistPop drugs self
  = Ok (count_resistant drugs (TreatedPatient.viruses self),
        TreatedPatient.set_resistantViruses
          (count_resistant drugs (TreatedPatient.viruses self)) self).
Proof.
  intros N. unfold TreatedPatient.getResistPop.
  change (TreatedPatient.viruses (TreatedPatient.set_resistantViruses 0 self))
    with (TreatedPatient.viruses self).
  rewrite count_loop_names by exact N. reflexivity.
Qed.

(** Administering a prescription of names changes the administered
    drugs only, and only to names of the prescription. *)
Lemma prescription_added l : forall p : TreatedPatient.t,
  forallb is_name l = true ->
  let p' := fold_left (fun p d => TreatedPatient.addPrescription d p) l p in
  TreatedPatient.viruses p' = TreatedPatient.viruses p
  /\ TreatedPatient.maxPop p' = TreatedPatient.maxPop p
  /\ incl (TreatedPatient.Prescriptions p')
          (TreatedPatient.Prescriptions p ++ l)
  /\ (forallb is_name (TreatedPatient.Prescriptions p) = true ->
      forallb is_name (TreatedPatient.Prescriptions p') = true).
Proof.
  induction l as [|d rest IH]; intros p Hl; simpl.
  - split; [reflexivity|]. split; [reflexivity|].
    split; [rewrite app_nil_r; intros x Hx; exact Hx|auto].
  - simpl in Hl. apply andb_prop in Hl as [Hd Hrest].
    destruct (IH (TreatedPatient.addPrescription d p) Hrest)
      as (Hv & Hm & Hincl & Hnames).
    assert (Hadd := addPrescription_run d p).
    remember (TreatedPatient.addPrescription d p) as q eqn:Hq. clear Hq.
    destruct (_ || _); subst q.
    + split; [exact Hv|]. split; [exact Hm|]. split; [|exact Hnames].
      intros x Hx. apply Hincl in Hx. apply in_app_or in Hx as [Hx|Hx];
        apply in_or_app; [left; exact Hx|right; right; exact Hx].
    + simpl in *. split; [exact Hv|]. split; [exact Hm|]. split.
      * intros x Hx. apply Hincl in Hx. rewrite <- app_assoc in Hx.
        exact Hx.
      * intros HP. apply Hnames. rewrite forallb_app, HP. simpl.
        rewrite Hd. reflexivity.
Qed.

(** One time step of the treated driver on a configured patient. *)
Lemma sim_step_run target offset D P i st w :
  TreatedPatient.maxPop (loc_p st) <> 0%Z ->
  TreatedPatient.Prescriptions (loc_p st) = P ->
  incl P D ->
  forallb (TreatedCalls.configured D) (TreatedPatient.viruses (loc_p st))
  = true ->
  (forall q, TreatedPatient.Prescriptions q = P ->
             forallb is_name (target q) = true) ->
  length (loc_yValues st) = i + offset
  \/ i + offset < length (loc_yValues st) ->
  length (loc_yDrugValues st) = i + offset
  \/ i + offset < length (loc_yDrugValues st) ->
  exists st' w',
    sim_step target offset i st w = (Ok st', w')
    /\ TreatedPatient.maxPop (loc_p st') = TreatedPatient.maxPop (loc_p st)
    /\ TreatedPatient.Prescriptions (loc_p st') = P
    /\ forallb (TreatedCalls.configured D)
         (TreatedPatient.viruses (loc_p st')) = true
    /\ length (loc_yValues st')
       = Nat.max (length (loc_yValues st)) (S (i + offset))
    /\ length (loc_yDrugValues st')
       = Nat.max (length (loc_yDrugValues st)) (S (i + offset)).
Proof.
  intros Hnz HP Hincl Hcfg Htarget Hy Hd.
  assert (HcfgP : forallb (TreatedCalls.configured
                             (TreatedPatient.Prescriptions (loc_p st)))
                    (TreatedPatient.viruses (loc_p st)) = true).
  { rewrite HP. apply forallb_forall. intros x Hx.
    rewrite forallb_forall in Hcfg.
    eapply configured_incl; [exact Hincl|]. apply Hcfg, Hx. }
  destruct (Treated_update_invariant (loc_p st) w Hnz HcfgP)
    as (n & p1 & w1 & Hrun & Hv & _ & Hsub & _ & _ & _ & Hnew
        & _ & _ & _ & _ & Hmax & _ & HP1 & _).
  assert (Hcfg1 : forallb (TreatedCalls.configured D)
                    (TreatedPatient.viruses p1) = true)
    by (eapply configured_after_update; eauto).
  unfold sim_step. rewrite (bind_ok _ _ _ _ _ Hrun). cbn [snd].
  destruct (add_at_length (loc_yValues st) (i + offset)
              (num (TreatedPatient.getTotalPop p1)) Hy)
    as (ys1 & Hadd & Hlen1).
  assert (Hys : for_each (range 1)
                  (fun (_ : nat) (yValues : list Q) =>
                     lift (add_at yValues (i + offset)
                             (num (TreatedPatient.getTotalPop p1))))
                  (loc_yValues st) w1 = (Ok ys1, w1)).
  { cbn [range seq for_each]. unfold bind, lift, ret. rewrite Hadd.
    reflexivity. }
  rewrite (bind_ok _ _ _ _ _ Hys).
  assert (Hnames : forallb is_name (target p1) = true)
    by (apply Htarget; congruence).
  assert (Hcall : forall w0,
            call_getResistPop p1 (target p1) w0
            = (Ok (count_resistant (target p1) (TreatedPatient.viruses p1),
                   TreatedPatient.set_resistantViruses
                     (count_resistant (target p1) (TreatedPatient.viruses p1))
                     p1),
               mkWorld (rng w0) (pos w0) (next_id w0)
                 (calls w0 ++
                  [TreatedPatient.GetResistPop (target p1)
                     (Ok (count_resistant (target p1)
                            (TreatedPatient.viruses p1)))]))).
  { intros w0. unfold call_getResistPop.
    rewrite (getResistPop_names _ _ Hnames). reflexivity. }
  set (cnt := count_resistant (target p1) (TreatedPatient.viruses p1)) in *.
  set (p2 := TreatedPatient.set_resistantViruses cnt p1) in *.
  assert (Hyd : exists yd1 w2,
            for_each (range 1)
              (fun (_ : nat) (yp : list Q * TreatedPatient.t) =>
                 let (yDrugValues, p) := yp in
                 if length yDrugValues =? i + offset
                 then r <- call_getResistPop p (target p) ;;
                      ret (yDrugValues ++ [num (fst r)], snd r)
                 else old <- lift (list_getitem yDrugValues (i + offset)) ;;
                      r <- call_getResistPop p (target p) ;;
                      ys <- lift (list_setitem yDrugValues (i + offset)
                                    (old + num (fst r))%Q) ;;
                      ret (ys, snd r))
              (loc_yDrugValues st, p1) w1 = (Ok (yd1, p2), w2)
            /\ length yd1
               = Nat.max (length (loc_yDrugValues st)) (S (i + offset))).
  { cbn [range seq for_each].
    destruct Hd as [Hd|Hd].
    - replace (length (loc_yDrugValues st) =? i + offset) with true
        by (symmetry; apply Nat.eqb_eq; exact Hd).
      unfold bind. rewrite Hcall. unfold ret. cbn [fst snd].
      eexists _, _. split; [reflexivity|].
      rewrite length_app. simpl. lia.
    - replace (length (loc_yDrugValues st) =? i + offset) with false
        by (symmetry; apply Nat.eqb_neq; lia).
      unfold list_getitem.
      destruct (nth_error (loc_yDrugValues st) (i + offset)) as [old|] eqn:N;
        [|apply nth_error_None in N; lia].
      unfold bind, lift. rewrite Hcall. cbn [fst snd].
      unfold list_setitem.
      replace (i + offset <? length (loc_yDrugValues st)) with true
        by (symmetry; apply Nat.ltb_lt; exact Hd).
      unfold ret. eexists _, _. split; [reflexivity|].
      rewrite list_update_length. lia. }
  destruct Hyd as (yd1 & w2 & Hyd & Hlen2).
  rewrite (bind_ok _ _ _ _ _ Hyd). unfold ret. cbn [fst snd].
  eexists _, _. split; [reflexivity|]. cbn [loc_p loc_yValues loc_yDrugValues].
  subst p2. cbn [TreatedPatient.maxPop TreatedPatient.Prescriptions
                 TreatedPatient.viruses TreatedPatient.set_resistantViruses].
  split; [exact Hmax|]. split; [congruence|]. split; [exact Hcfg1|].
  split; assumption.
Qed.

(** A phase of [m] steps of the treated driver. *)
Lemma sim_steps_run target offset D P m st w :
  TreatedPatient.maxPop (loc_p st) <> 0%Z ->
  TreatedPatient.Prescriptions (loc_p st) = P ->
  incl P D ->
  forallb (TreatedCalls.configured D) (TreatedPatient.viruses (loc_p st))
  = true ->
  (forall q, TreatedPatient.Prescriptions q = P ->
             forallb is_name (target q) = true) ->
  length (loc_yValues st) = offset \/ m + offset <= length (loc_yValues st) ->
  length (loc_yDrugValues st) = offset
  \/ m + offset <= length (loc_yDrugValues st) ->
  exists st' w',
    for_each (range m) (sim_step target offset) st w = (Ok st', w')
    /\ TreatedPatient.maxPop (loc_p st') = TreatedPatient.maxPop (loc_p st)
    /\ TreatedPatient.Prescriptions (loc_p st') = P
    /\ forallb (TreatedCalls.configured D)
         (TreatedPatient.viruses (loc_p st')) = true
    /\ length (loc_yValues st')
       = Nat.max (length (loc_yValues st)) (m + offset)
    /\ length (loc_yDrugValues st')
       = Nat.max (length (loc_yDrugValues st)) (m + offset).
Proof.
  intros Hnz HP Hincl Hcfg Htarget Hy Hd. unfold range.
  destruct (for_each_seq_inv
              (fun i (s : sim_locals) (_ : world TreatedPatient.event) =>
                 TreatedPatient.maxPop (loc_p s)
                 = TreatedPatient.maxPop (loc_p st)
                 /\ TreatedPatient.Prescriptions (loc_p s) = P
                 /\ forallb (TreatedCalls.configured D)
                      (TreatedPatient.viruses (loc_p s)) = true
                 /\ length (loc_yValues s)
                    = Nat.max (length (loc_yValues st)) (i + offset)
                 /\ length (loc_yDrugValues s)
                    = Nat.max (length (loc_yDrugValues st)) (i + offset))
              (sim_step target offset) m 0 st w)
    as (st' & w' & Hrun & HI).
  - intros i s w0 Hi (Hm & HPs & Hc & Hly & Hld).
    assert (Hnz' : TreatedPatient.maxPop (loc_p s) <> 0%Z)
      by (rewrite Hm; exact Hnz).
    assert (Hy' : length (loc_yValues s) = i + offset
                  \/ i + offset < length (loc_yValues s)) by lia.
    assert (Hd' : length (loc_yDrugValues s) = i + offset
                  \/ i + offset < length (loc_yDrugValues s)) by lia.
    destruct (sim_step_run target offset D P i s w0 Hnz' HPs Hincl Hc
                Htarget Hy' Hd')
      as (s' & w1 & Hstep & Hm' & HP' & Hc' & Hly' & Hld').
    exists s', w1. split; [exact Hstep|].
    split; [congruence|]. split; [exact HP'|]. split; [exact Hc'|].
    split; lia.
  - split; [reflexivity|]. split; [exact HP|]. split; [exact Hcfg|].
    simpl. split; lia.
  - exists st', w'. split; [exact Hrun|]. simpl in HI.
    destruct HI as (Hm & HP' & Hc & Hly & Hld).
    repeat (split; [assumption || reflexivity|]). assumption.
Qed.

(** One trial of the treated driver. *)
Lemma trial_run (patient : TreatedPatient.t) t st w :
  TreatedPatient.maxPop patient <> 0%Z ->
  forallb is_name (TreatedPatient.Prescriptions patient) = true ->
  forallb is_name (TreatedPatient.prescription patient) = true ->
  forallb (TreatedCalls.configured (TreatedPatient.prescription patient))
    (TreatedPatient.viruses patient) = true ->
  length (loc_yValues st) = 0 \/ 300 <= length (loc_yValues st) ->
  length (loc_yDrugValues st) = 0 \/ 300 <= length (loc_yDrugValues st) ->
  exists st' w',
    trial patient t st w = (Ok st', w')
    /\ length (loc_yValues st') = Nat.max (length (loc_yValues st)) 300
    /\ length (loc_yDrugValues st')
       = Nat.max (length (loc_yDrugValues st)) 300.
Proof.
  intros Hnz HnP Hnp Hcfg Hy Hd. unfold trial.
  set (D := TreatedPatient.prescription patient) in *.
  set (st1 := mkLocals (loc_yValues st) (loc_yDrugValues st)
                (TreatedPatient.new (TreatedPatient.viruses patient)
                   (TreatedPatient.maxPop patient) [])).
  destruct (sim_steps_run
              (fun _ => TreatedPatient.getPrescriptions patient) 0 D [] 150
              st1 w) as (st2 & w2 & Hrun1 & Hm2 & HP2 & Hc2 & Hly2 & Hld2).
  { exact Hnz. }
  { reflexivity. }
  { intros x []. }
  { exact Hcfg. }
  { intros q _. exact HnP. }
  { simpl. lia. }
  { simpl. lia. }
  rewrite (bind_ok _ _ _ _ _ Hrun1).
  destruct (prescription_added D (loc_p st2) Hnp)
    as (Hv3 & Hm3 & Hincl3 & Hn3).
  set (p3 := fold_left (fun p d => TreatedPatient.addPrescription d p) D
               (loc_p st2)) in *.
  rewrite HP2 in Hincl3, Hn3. simpl in Hincl3.
  set (st3 := mkLocals (loc_yValues st2) (loc_yDrugValues st2) p3).
  destruct (sim_steps_run
              (fun p => TreatedPatient.getPrescriptions p) 150 D
              (TreatedPatient.Prescriptions p3) 150 st3 w2)
    as (st4 & w4 & Hrun2 & Hm4 & HP4 & Hc4 & Hly4 & Hld4).
  { simpl. rewrite Hm3, Hm2. exact Hnz. }
  { reflexivity. }
  { exact Hincl3. }
  { simpl. rewrite Hv3. exact Hc2. }
  { intros q Hq. unfold TreatedPatient.getPrescriptions. rewrite Hq.
    apply Hn3. reflexivity. }
  { simpl. simpl in Hly2. lia. }
  { simpl. simpl in Hld2. lia. }
  exists st4, w4. split; [exact Hrun2|].
  simpl in *. split; lia.
Qed.

Lemma trials_run (patient : TreatedPatient.t) T : forall a st w,
  TreatedPatient.maxPop patient <> 0%Z ->
  forallb is_name (TreatedPatient.Prescriptions patient) = true ->
  forallb is_name (TreatedPatient.prescription patient) = true ->
  forallb (TreatedCalls.configured (TreatedPatient.prescription patient))
    (TreatedPatient.viruses patient) = true ->
  length (loc_yValues st) = 0 \/ length (loc_yValues st) = 300 ->
  length (loc_yDrugValues st) = 0 \/ length (loc_yDrugValues st) = 300 ->
  exists st' w',
    for_each (seq a T) (trial patient) st w = (Ok st', w')
    /\ length (loc_yValues st')
       = (if T =? 0 then length (loc_yValues st) else 300)
    /\ length (loc_yDrugValues st')
       = (if T =? 0 then length (loc_yDrugValues st) else 300).
Proof.
  induction T as [|T IH]; intros a st w Hnz HnP Hnp Hcfg Hy Hd.
  - simpl. exists st, w. repeat split; reflexivity.
  - destruct (trial_run patient a st w Hnz HnP Hnp Hcfg)
      as (st1 & w1 & Hrun & Hly & Hld); [lia|lia|].
    cbn [seq for_each]. rewrite (bind_ok _ _ _ _ _ Hrun).
    destruct (IH (S a) st1 w1 Hnz HnP Hnp Hcfg)
      as (st' & w' & Hrest & Hly' & Hld'); [lia|lia|].
    exists st', w'. split; [exact Hrest|].
    rewrite Hly', Hld'. destruct (T =? 0); simpl; split; lia.
Qed.

(** X21.  [simulationWithDrug] on a configured template -- a non-zero
    [maxPop], drug names only in the prescription and among the drugs
    already administered, and particles that each have an entry for
    every prescribed drug or an empty map -- never raises: it returns
    two sequences of 300 averages when there is at least one trial, and
    two empty sequences when there is none. *)
Theorem simulationWithDrug_returns :
  forall (virus : ResistantVirus.t) (patient : TreatedPatient.t)
         (numTrials : nat) (w : world TreatedPatient.event),
    TreatedPatient.maxPop patient <> 0%Z ->
    forallb is_name (TreatedPatient.Prescriptions patient) = true ->
    forallb is_name (TreatedPatient.prescription patient) = true ->
    forallb (TreatedCalls.configured (TreatedPatient.prescription patient))
      (TreatedPatient.viruses patient) = true ->
    exists ys yd w',
      simulationWithDrug virus patient numTrials w = (Ok (ys, yd), w')
      /\ length ys = (if numTrials =? 0 then 0 else 300)
      /\ length yd = (if numTrials =? 0 then 0 else 300).
Proof.
  intros virus patient T w Hnz HnP Hnp Hcfg.
  unfold simulationWithDrug, range.
  destruct (trials_run patient T 0 (mkLocals [] [] patient) w
              Hnz HnP Hnp Hcfg) as (st & w1 & Hrun & Hly & Hld);
    [left; reflexivity|left; reflexivity|].
  rewrite (bind_ok _ _ _ _ _ Hrun).
  simpl in Hly, Hld.
  assert (Hav : forall ys,
            length ys = (if T =? 0 then 0 else 300) ->
            exists ys', average ys T = Ok ys'
                        /\ length ys' = (if T =? 0 then 0 else 300)).
  { intros ys Hl.
    destruct (Nat.eqb_spec T 0) as [->|HT].
    - destruct ys; [|discriminate]. exists []. split; reflexivity.
    - rewrite (average_run ys T HT). eexists. split; [reflexivity|].
      rewrite length_map. exact Hl. }
  destruct (Hav _ Hly) as (ys' & Hys & Hlys).
  destruct (Hav _ Hld) as (yd' & Hyd & Hlyd).
  unfold bind, lift, ret. rewrite Hys, Hyd.
  exists ys', yd', w1. repeat split; assumption.
Qed.

(** The template of the treated driver with prescription ["a"], one
    trial. *)
Lemma simulationWithDrug_returns_witness :
  exists ys yd w',
    simulationWithDrug Inputs.susceptible_a Inputs.template 1
      (Inputs.start (Inputs.always (1#2))) = (Ok (ys, yd), w')
    /\ length ys = (if 1 =? 0 then 0 else 300)
    /\ length yd = (if 1 =? 0 then 0 else 300).
Proof.
  apply (simulationWithDrug_returns Inputs.susceptible_a Inputs.template 1
           (Inputs.start (Inputs.always (1#2)))).
  - simpl. lia.
  - reflexivity.
  - reflexivity.
  - reflexivity.
Defined.

End Drivers.

(** ** A zero [maxPop] *)

Lemma Patient_update_zero_run (self : Patient.t) w :
  Patient.maxPop self = 0%Z ->
  Patient.update self w
  = (Raise ZeroDivisionError,
     mkWorld (rng w) (pos w + length (Patient.viruses self)) (next_id w)
       (calls w ++ PatientCalls.clear_calls (rng w) (pos w)
                     (Patient.viruses self))).
Proof.
  intros H. unfold Patient.update. unfold bind at 1.
  rewrite Patient_clear_loop. simpl. unfold bind at 1, lift, true_div.
  simpl. rewrite H. reflexivity.
Qed.

Lemma Treated_update_zero_run (self : TreatedPatient.t) w :
  TreatedPatient.maxPop self = 0%Z ->
  TreatedPatient.update self w
  = (Raise ZeroDivisionError,
     mkWorld (rng w) (pos w + length (TreatedPatient.viruses self))
       (next_id w)
       (calls w ++ TreatedCalls.clear_calls (rng w) (pos w)
                     (TreatedPatient.viruses self))).
Proof.
  intros H. unfold TreatedPatient.update. unfold bind at 1.
  rewrite Treated_clear_loop. simpl. unfold bind at 1, lift, true_div.
  simpl. rewrite H. reflexivity.
Qed.

(** X22.  With [maxPop = 0] a step of either container raises
    [ZeroDivisionError] -- for every population, the empty one included
    -- after the clearance loop has taken one draw per live particle. *)
Theorem update_zero_maxPop :
  (forall (self : Patient.t) (w : world Patient.event),
     Patient.maxPop self = 0%Z ->
     fst (Patient.update self w) = Raise ZeroDivisionError
     /\ pos (snd (Patient.update self w))
        = pos w + Patient.getTotalPop self)
  /\
  (forall (self : TreatedPatient.t) (w : world TreatedPatient.event),
     TreatedPatient.maxPop self = 0%Z ->
     fst (TreatedPatient.update self w) = Raise ZeroDivisionError
     /\ pos (snd (TreatedPatient.update self w))
        = pos w + TreatedPatient.getTotalPop self).
Proof.
  split; intros self w Hz.
  - rewrite (Patient_update_zero_run self w Hz). split; reflexivity.
  - rewrite (Treated_update_zero_run self w Hz). split; reflexivity.
Qed.

(** One particle each, [maxPop = 0]. *)
Lemma update_zero_maxPop_witness :
  (fst (Patient.update (Patient.new [Inputs.simple] 0)
          (Inputs.start (Inputs.always (1#2)))) = Raise ZeroDivisionError
   /\ pos (snd (Patient.update (Patient.new [Inputs.simple] 0)
                  (Inputs.start (Inputs.always (1#2)))))
      = 0 + 1)
  /\ (fst (TreatedPatient.update
             (TreatedPatient.new [Inputs.resistant_a] 0 [])
             (Inputs.start (Inputs.always (1#2)))) = Raise ZeroDivisionError
      /\ pos (snd (TreatedPatient.update
                     (TreatedPatient.new [Inputs.resistant_a] 0 [])
                     (Inputs.start (Inputs.always (1#2)))))
         = 0 + 1).
Proof.
  split.
  - apply (proj1 update_zero_maxPop (Patient.new [Inputs.simple] 0)
             (Inputs.start (Inputs.always (1#2)))).
    reflexivity.
  - apply (proj2 update_zero_maxPop
             (TreatedPatient.new [Inputs.resistant_a] 0 [])
             (Inputs.start (Inputs.always (1#2)))).
    reflexivity.
Defined.
